(** * Chess submission grader: evaluate.py, api_server.py, handler.py

    A shallow embedding of the metric engine and the evaluation loop of
    [evaluate.py], of the job registry and the background task of
    [api_server.py], and of the two [run_evaluation] wrappers
    ([api_server.py], [handler.py]), followed by the properties proved
    about them.

    Conventions of the embedding.
    - A Python [str] is a [string] whose characters are the code points
      U+0000..U+00FF (one [ascii] per code point).
    - A Python [float] is a binary64 [PrimFloat.float]; [sum] adds from the
      left, and an [int] that only ever meets floats (the start value of
      [sum], a count that is divided) is converted on the spot.
    - A raised exception is a value of [exn]; code that can raise returns a
      [result]; code that also changes state runs in the monad [M].
    - Code of a submission can also raise outside [Exception] ([sys.exit]);
      what calls it ends in an [ending] and runs in the monad [Run]. Such
      code acts on a run through what its import, its calls and the methods
      of the objects it returns give back or raise; code that reaches into
      the interpreter (patched modules, exit handlers, threads) is not
      modelled.
    - Output on stdout and the logger is not modelled. *)

From Stdlib Require Import ZArith List String Ascii Bool Lia QArith PrimFloat Uint63.
From Stdlib Require Import Sorting.Sorted Sorting.Permutation.
From stdpp Require Import base tactics option list gmap strings pretty.

Open Scope string_scope.
Open Scope list_scope.
Open Scope nat_scope.

(** ** Python primitives *)

Module Py.

(** Exceptions, all of them instances of [Exception]. [Exception msg] is any
    instance raised by foreign code, with [msg] its [str()]. What is raised
    outside [Exception] is an [exit], below. *)
Inductive exn : Type :=
| IndexError (msg : string)
| ValueError (msg : string)
| KeyError (key : string)
| ZeroDivisionError (msg : string)
| FileNotFoundError (msg : string)
| TimeoutExpired (msg : string)
| CalledProcessError (msg : string) (stderr : string)
| HTTPException (status_code : nat) (detail : string)
| Exception (msg : string).

(** [str(e)] *)
Definition str_of_exn (e : exn) : string :=
  match e with
  | IndexError m | ValueError m | ZeroDivisionError m
  | FileNotFoundError m | TimeoutExpired m | CalledProcessError m _
  | Exception m => m
  | HTTPException _ detail => detail
  | KeyError k => "'" +:+ k +:+ "'"
  end.

Inductive result (A : Type) : Type :=
| Ok (a : A)
| Raise (e : exn).
Arguments Ok {A} a.
Arguments Raise {A} e.

#[global] Instance result_ret : MRet result := fun A a => Ok a.
#[global] Instance result_bind : MBind result := fun A B f r =>
  match r with
  | Ok a => f a
  | Raise e => Raise e
  end.

Definition is_ok {A} (r : result A) : bool :=
  match r with Ok _ => true | Raise _ => false end.

(** State and exceptions: a computation maps the state before to the state
    after and to a value or a raised exception. A raise keeps the state
    reached so far, as an assignment made before a [raise] stays made. *)
Definition M (St A : Type) : Type := St -> St * result A.

#[global] Instance M_ret {St} : MRet (M St) := fun A a st => (st, Ok a).
#[global] Instance M_bind {St} : MBind (M St) := fun A B f m st =>
  match m st with
  | (st', Ok a) => f a st'
  | (st', Raise e) => (st', Raise e)
  end.

Definition raise {St A} (e : exn) : M St A := fun st => (st, Raise e).
Definition get_state {St} : M St St := fun st => (st, Ok st).
Definition modify {St} (f : St -> St) : M St unit := fun st => (f st, Ok tt).
Definition lift {St A} (r : result A) : M St A := fun st => (st, r).

(** [try: body / except Exception as e: handler e] *)
Definition try_except {St A} (body : M St A) (handler : exn -> M St A) : M St A :=
  fun st =>
    match body st with
    | (st', Ok a) => (st', Ok a)
    | (st', Raise e) => handler e st'
    end.

(** *** Code that calls into a submission *)

(** A raise from a class derived from [BaseException] alone, which
    [except Exception] does not catch: [SystemExit], as [sys.exit] raises
    it, with the exit status the interpreter ends with when nothing catches
    it (0 for [sys.exit()], [sys.exit(None)] and [sys.exit(0)]), or
    [KeyboardInterrupt]. *)
Inductive exit : Type :=
| SystemExit (status : Z)
| KeyboardInterrupt.

(** The exit status of the interpreter that such a raise ends. A
    [KeyboardInterrupt] that nothing catches ends it by SIGINT, which
    [subprocess] reports as -2. *)
Definition exit_status (x : exit) : Z :=
  match x with
  | SystemExit status => status
  | KeyboardInterrupt => (-2)%Z
  end.

(** How code that runs code of a submission ends: it returns, it raises an
    instance of [Exception], or it raises past every [except Exception]. *)
Inductive ending (A : Type) : Type :=
| Returned (a : A)
| Raised (e : exn)
| Exited (x : exit).
Arguments Returned {A} a.
Arguments Raised {A} e.
Arguments Exited {A} x.

#[global] Instance ending_ret : MRet ending := fun A a => Returned a.
#[global] Instance ending_bind : MBind ending := fun A B f r =>
  match r with
  | Returned a => f a
  | Raised e => Raised e
  | Exited x => Exited x
  end.

(** The same with a state, as [M] is for [result]. *)
Definition Run (St A : Type) : Type := St -> St * ending A.

#[global] Instance Run_ret {St} : MRet (Run St) := fun A a st => (st, Returned a).
#[global] Instance Run_bind {St} : MBind (Run St) := fun A B f m st =>
  match m st with
  | (st', Returned a) => f a st'
  | (st', Raised e) => (st', Raised e)
  | (st', Exited x) => (st', Exited x)
  end.

(** Code of this repository inside such a run: what it raises is an
    instance of [Exception]. *)
Definition run_lift {St A} (r : result A) : Run St A := fun st =>
  (st, match r with Ok a => Returned a | Raise e => Raised e end).

(** A method of a foreign object inside such a run. *)
Definition run_ending {St A} (r : ending A) : Run St A := fun st => (st, r).

(** [try: body / except Exception as e: handler e] around code of a
    submission: a raise outside [Exception] passes the handler. *)
Definition try_run {St A} (body : Run St A) (handler : exn -> Run St A)
    : Run St A :=
  fun st =>
    match body st with
    | (st', Returned a) => (st', Returned a)
    | (st', Raised e) => handler e st'
    | (st', Exited x) => (st', Exited x)
    end.

(** *** Characters *)

Definition code (c : ascii) : nat := nat_of_ascii c.

Definition is_ascii_digit (c : ascii) : bool :=
  (48 <=? code c) && (code c <=? 57).

(** [c.isdigit()]: the decimal digits and, below U+0100, the superscripts
    U+00B2, U+00B3 and U+00B9. *)
Definition isdigit (c : ascii) : bool :=
  is_ascii_digit c || (code c =? 178) || (code c =? 179) || (code c =? 185).

(** [int(c)] for a one-character string: the superscripts are digits for
    [isdigit] and no literal for [int]. *)
Definition int_of_char (c : ascii) : result nat :=
  if is_ascii_digit c then Ok (code c - 48)
  else Raise (ValueError ("invalid literal for int() with base 10: '" +:+ String c "" +:+ "'")).

(** [c.isspace()] below U+0100, the set [split()] and [strip()] use. *)
Definition isspace (c : ascii) : bool :=
  ((9 <=? code c) && (code c <=? 13))
  || ((28 <=? code c) && (code c <=? 32))
  || (code c =? 133) || (code c =? 160).

(** *** Strings *)

(** [c in s] for a one-character [c] *)
Fixpoint contains (c : ascii) (s : string) : bool :=
  match s with
  | EmptyString => false
  | String d s' => Ascii.eqb d c || contains c s'
  end.

Fixpoint lstrip (s : string) : string :=
  match s with
  | EmptyString => EmptyString
  | String c s' => if isspace c then lstrip s' else s
  end.

Fixpoint rstrip (s : string) : string :=
  match s with
  | EmptyString => EmptyString
  | String c s' =>
      match rstrip s' with
      | EmptyString => if isspace c then EmptyString else String c EmptyString
      | r => String c r
      end
  end.

(** [s.strip()] *)
Definition strip (s : string) : string := rstrip (lstrip s).

(** [s.split()]: the maximal runs of non-whitespace characters. *)
Fixpoint split (s : string) : list string :=
  match s with
  | EmptyString => []
  | String c s' =>
      if isspace c then split s'
      else
        match s' with
        | EmptyString => [String c EmptyString]
        | String c' _ =>
            if isspace c' then String c EmptyString :: split s'
            else
              match split s' with
              | w :: ws => String c w :: ws
              | [] => [String c EmptyString]
              end
        end
  end.

(** [s.split(sep)] for a one-character [sep]: empty fields are kept. *)
Fixpoint split_on (sep : ascii) (s : string) : list string :=
  match s with
  | EmptyString => [EmptyString]
  | String c s' =>
      if Ascii.eqb c sep then EmptyString :: split_on sep s'
      else
        match split_on sep s' with
        | w :: ws => String c w :: ws
        | [] => [String c EmptyString]
        end
  end.

(** [s.startswith(p)] *)
Definition startswith (p s : string) : bool := String.prefix p s.

(** [l[0]] *)
Definition item0 {A} (l : list A) : result A :=
  match l with
  | x :: _ => Ok x
  | [] => Raise (IndexError "list index out of range")
  end.

(** [l[:n]] *)
Definition slice_to {A} (l : list A) (n : Z) : list A :=
  if (0 <=? n)%Z then take (Z.to_nat n) l
  else take (length l - Z.to_nat (- n)) l.

(** [sorted(l)] for a list of strings: a stable insertion into code-point
    order. *)
Fixpoint insert_sorted (x : string) (l : list string) : list string :=
  match l with
  | [] => [x]
  | y :: l' => if String.leb x y then x :: l else y :: insert_sorted x l'
  end.

Definition sorted (l : list string) : list string :=
  foldr insert_sorted [] l.

(** *** Floats *)

(** [float(n)] for a count [n]; counts are list lengths, below 2^63. *)
Definition float_of_nat (n : nat) : float :=
  PrimFloat.of_uint63 (Uint63.of_Z (Z.of_nat n)).

(** [x / n] with a count as divisor *)
Definition div_count (x : float) (n : nat) : result float :=
  match n with
  | O => Raise (ZeroDivisionError "division by zero")
  | _ => Ok (PrimFloat.div x (float_of_nat n))
  end.

(** [sum(l)] over floats *)
Definition sum_floats (l : list float) : float :=
  fold_left PrimFloat.add l 0%float.

End Py.

(** ** evaluate.py *)

Module Evaluate.
Import Py.

(** [extract_piece_positions]: the first whitespace-separated field when the
    string holds a space, the string itself otherwise. *)
Definition extract_piece_positions (fen : string) : result string :=
  if contains " " fen then item0 (split fen) else Ok fen.

(** [compare_positions] *)
Definition compare_positions (predicted ground_truth : string) : result bool :=
  pred_pos ← extract_piece_positions (strip predicted);
  gt_pos ← extract_piece_positions (strip ground_truth);
  mret (bool_decide (pred_pos = gt_pos)).

(** The body of the inner loop of [fen_to_board]: one character of a rank. *)
Definition fen_char (board : list ascii) (char : ascii) : result (list ascii) :=
  if isdigit char then
    n ← int_of_char char;
    mret (board ++ repeat "."%char n)
  else mret (board ++ [char]).

(** [for char in rank] *)
Fixpoint fen_rank (rank : string) (board : list ascii) : result (list ascii) :=
  match rank with
  | EmptyString => Ok board
  | String char rest => board' ← fen_char board char; fen_rank rest board'
  end.

(** [for rank in ranks] *)
Fixpoint fen_ranks (ranks : list string) (board : list ascii) : result (list ascii) :=
  match ranks with
  | [] => Ok board
  | rank :: rest => board' ← fen_rank rank board; fen_ranks rest board'
  end.

(** [fen_to_board]: the board is a list of one-character strings, the empty
    square being ["."]. *)
Definition fen_to_board (fen_pos : string) : result (list ascii) :=
  fen_ranks (split_on "/" fen_pos) [].

(** [sum(1 for p, g in zip(pred_board, gt_board) if p == g)] *)
Fixpoint matches (pred_board gt_board : list ascii) : nat :=
  match pred_board, gt_board with
  | p :: ps, g :: gs => (if Ascii.eqb p g then 1 else 0) + matches ps gs
  | _, _ => 0
  end.

(** [calculate_piece_accuracy] *)
Definition calculate_piece_accuracy (predicted ground_truth : string) : result float :=
  pred_pos ← extract_piece_positions (strip predicted);
  gt_pos ← extract_piece_positions (strip ground_truth);
  pred_board ← fen_to_board pred_pos;
  gt_board ← fen_to_board gt_pos;
  mret (PrimFloat.div (float_of_nat (matches pred_board gt_board)) 64%float).

(** *** The predictor and the dataset *)

(** What [predict_func] can hand back: a [str], [None], or an object of
    another type. Such an object is given by its type name, by what testing
    its truth does ([__bool__] or [__len__] is code of the submission or of
    a library: the test of a numpy array of two elements raises
    [ValueError]) and by what the two test prints do with it when it is
    true ([len(str(v))], then [v[:100]]). *)
Inductive pyval : Type :=
| VStr (s : string)
| VNone
| VObj (ty : string) (truth : ending bool) (shown : ending unit).

(** [bool(v)], as [not v] and [if v] evaluate it *)
Definition truthy (v : pyval) : ending bool :=
  match v with
  | VStr s => Returned (negb (String.eqb s ""))
  | VNone => Returned false
  | VObj _ truth _ => truth
  end.

(** [len(str(v))] and [v[:100]] for a true [v], as the test prints evaluate
    them *)
Definition display (v : pyval) : ending unit :=
  match v with
  | VStr _ => Returned tt
  | VNone => Returned tt
  | VObj _ _ shown => shown
  end.

(** [isinstance(v, str)] *)
Definition is_str (v : pyval) : bool :=
  match v with VStr _ => true | _ => false end.

(** [str(type(v))] *)
Definition type_repr (v : pyval) : string :=
  match v with
  | VStr _ => "<class 'str'>"
  | VNone => "<class 'NoneType'>"
  | VObj ty _ _ => "<class '" +:+ ty +:+ "'>"
  end.

(** One call of [predict_func]: it returns a value, and the clock around the
    call measures [elapsed]; or it raises an instance of [Exception] whose
    [str()] is [msg]; or it raises outside [Exception]. *)
Inductive outcome : Type :=
| Returns (v : pyval) (elapsed : float)
| Raises (msg : string)
| Exits (x : exit).

(** The label file of an image: absent, not decodable ([read_text] raises
    [UnicodeDecodeError]), or a text. *)
Inductive label_file : Type :=
| Missing
| Undecodable
| Text (contents : string).

(** The test directory: [glob_png] lists the names that [images/*.png]
    yields, in directory order; [label_of name] is the file
    [labels/<stem of name>.txt]. An image is known by its name, which also
    stands for the path handed to the predictor. *)
Record dataset : Type := {
  glob_png : list string;
  label_of : string -> label_file
}.

(** An entry of [results["predictions"]]; a key the dict lacks is [None]. *)
Record prediction : Type := {
  image : string;
  error : option string;
  predicted : option string;
  ground_truth : option string;
  correct : bool;
  piece_accuracy : float;
  time_seconds : float
}.

(** [results["metrics"]] *)
Record metrics : Type := {
  total_images : nat;
  correct_predictions : nat;
  accuracy : float;
  avg_inference_time : float;
  total_time : float;
  avg_piece_accuracy : float
}.

(** The dict [evaluate_submission] returns. *)
Record results : Type := {
  predictions : list prediction;
  timing : list float;
  metrics_of : metrics
}.

(** [results["predictions"]] and [results["timing"]] while the loop runs. *)
Definition loop_state : Type := list prediction * list float.

(** What the [try] block of one image leaves: [continue] with the lists as
    they are now, or a non-empty string to score. *)
Inductive attempt : Type :=
| Skip (r : loop_state)
| Valid (predicted : string) (elapsed : float).

(** [image_files]: the sorted names, without macOS metadata files, cut to
    [max_samples] when that is given and true. *)
Definition image_files (d : dataset) (max_samples : option Z) : list string :=
  let image_files :=
    sorted (List.filter (fun name => negb (startswith "._" name)) (glob_png d)) in
  match max_samples with
  | None => image_files
  | Some n => if (n =? 0)%Z then image_files else slice_to image_files n
  end.

(** The final metrics, from the two lists. *)
Definition final_metrics (r : loop_state) : result metrics :=
  let total := length r.1 in
  let correct_count := length (List.filter correct r.1) in
  accuracy ←
    (if 0 <? total then div_count (float_of_nat correct_count) total
     else Ok 0%float);
  avg_inference_time ←
    (match r.2 with
     | [] => Ok 0%float
     | _ => div_count (sum_floats r.2) (length r.2)
     end);
  let total_time := sum_floats r.2 in
  avg_piece_accuracy ←
    (if 0 <? total then div_count (sum_floats (map piece_accuracy r.1)) total
     else Ok 0%float);
  mret {| total_images := total;
          correct_predictions := correct_count;
          accuracy := accuracy;
          avg_inference_time := avg_inference_time;
          total_time := total_time;
          avg_piece_accuracy := avg_piece_accuracy |}.

(** The progress line printed after every hundredth image: its two
    divisions are evaluated, its text is dropped. *)
Definition progress (idx : nat) (r : loop_state) : result unit :=
  if (idx + 1) mod 100 =? 0 then
    let correct_so_far := length (List.filter correct r.1) in
    _ ← div_count (float_of_nat correct_so_far) (length r.1);
    _ ← div_count (sum_floats (map piece_accuracy r.1)) (length r.1);
    mret tt
  else mret tt.

Section Run.

(** The predictor is a black box with a state of its own. *)
Context {PS : Type}.
Variable predict_func : PS -> string -> outcome * PS.

(** The world of one run: the predictor's state and, as a ghost, the calls
    made so far with what each one did. *)
Record world : Type := {
  pstate : PS;
  calls : list (string * outcome)
}.

(** [predict_func(str(img_path))], with the clock read around it. *)
Definition invoke (img : string) : Run world (pyval * float) := fun w =>
  let '(o, s') := predict_func (pstate w) img in
  let w' := {| pstate := s'; calls := calls w ++ [(img, o)] |} in
  match o with
  | Returns v elapsed => (w', Returned (v, elapsed))
  | Raises msg => (w', Raised (Exception msg))
  | Exits x => (w', Exited x)
  end.

(** "Test predict function first": one call on the first image; the two
    prints test the truth of what it returned and, when it is true, take
    its length and its first hundred characters. Every [Exception] of the
    block is swallowed. *)
Definition test_prediction (files : list string) : Run world unit :=
  try_run
    (first ← run_lift (item0 files);
     '(test_result, _) ← invoke first;
     t ← run_ending (truthy test_result);
     if t : bool then run_ending (display test_result) else mret tt)
    (fun _ => mret tt).

(** The [try] block of one image. [not predicted] is evaluated first and
    inside the block; [isinstance] only when the value is true. *)
Definition predict_image (img : string) (r : loop_state) : Run world attempt :=
  try_run
    ('(predicted, elapsed) ← invoke img;
     t ← run_ending (truthy predicted);
     if negb t || negb (is_str predicted) then
       mret (Skip
         (r.1 ++ [{| image := img;
                     error := Some ("Invalid output type: " +:+ type_repr predicted);
                     predicted := None;
                     ground_truth := None;
                     correct := false;
                     piece_accuracy := 0%float;
                     time_seconds := elapsed |}],
          r.2 ++ [elapsed]))
     else
       match predicted with
       | VStr s => mret (Valid s elapsed)
       | _ => mret (Skip r) (* not reached: [predicted] is a [str] here *)
       end)
    (fun e =>
       mret (Skip
         (r.1 ++ [{| image := img;
                     error := Some (str_of_exn e);
                     predicted := None;
                     ground_truth := None;
                     correct := false;
                     piece_accuracy := 0%float;
                     time_seconds := 0%float |}],
          r.2))).

(** The body of the main loop for the image [img] at index [idx]. *)
Definition evaluate_image (d : dataset) (idx : nat) (img : string)
    (r : loop_state) : Run world loop_state :=
  match label_of d img with
  | Missing => mret r
  | Undecodable => mret r
  | Text contents =>
      let gt := strip contents in
      a ← predict_image img r;
      match a with
      | Skip r' => mret r'
      | Valid s elapsed =>
          is_correct ← run_lift (compare_positions s gt);
          piece_acc ← run_lift (calculate_piece_accuracy s gt);
          shown_pred ← run_lift (extract_piece_positions s);
          shown_gt ← run_lift (extract_piece_positions gt);
          let r' :=
            (r.1 ++ [{| image := img;
                        error := None;
                        predicted := Some shown_pred;
                        ground_truth := Some shown_gt;
                        correct := is_correct;
                        piece_accuracy := piece_acc;
                        time_seconds := elapsed |}],
             r.2 ++ [elapsed]) in
          _ ← run_lift (progress idx r');
          mret r'
      end
  end.

(** [for idx, img_path in enumerate(image_files)] *)
Fixpoint for_images (d : dataset) (idx : nat) (files : list string)
    (r : loop_state) : Run world loop_state :=
  match files with
  | [] => mret r
  | img :: rest =>
      r' ← evaluate_image d idx img r;
      for_images d (S idx) rest r'
  end.

(** [evaluate_submission] *)
Definition evaluate_submission (d : dataset) (max_samples : option Z)
    : Run world results :=
  let files := image_files d max_samples in
  _ ← test_prediction files;
  r ← for_images d 0 files ([], []);
  m ← run_lift (final_metrics r);
  mret {| predictions := r.1; timing := r.2; metrics_of := m |}.

End Run.

End Evaluate.

(** ** subprocess.run and the evaluation child *)

Module Subprocess.
Import Py.

(** What [open(result_file)] and [json.load] find after the child: no file,
    a file that is no JSON, or a JSON file, read as a results dict of the
    shape that [save_results] writes. *)
Inductive result_file : Type :=
| NoFile
| NotJson (why : string)
| Json (r : Evaluate.results).

(** The child [python3 evaluate.py ...]: the seconds it needs before it
    exits, its exit status, its stderr, the results file it leaves when it
    runs to its end, and the parent's clock reading around the call. What
    the child prints is taken to decode as text. *)
Record process : Type := {
  seconds : Q;
  returncode : Z;
  stderr : string;
  written : result_file;
  measured : float
}.

(** [subprocess.run(cmd, check=True, capture_output=True, text=True,
    timeout=t)]: a child that needs more than [t] seconds is killed and
    [TimeoutExpired] raised; a non-zero exit status raises
    [CalledProcessError]. *)
Definition run (p : process) (timeout : Q) : result unit :=
  if negb (Qle_bool (seconds p) timeout) then
    Raise (TimeoutExpired "Command timed out")
  else if negb (returncode p =? 0)%Z then
    Raise (CalledProcessError "Command returned non-zero exit status" (stderr p))
  else Ok tt.

(** [with open(result_file) as f: results = json.load(f)] *)
Definition json_load (f : result_file) : result Evaluate.results :=
  match f with
  | NoFile => Raise (FileNotFoundError "No such file or directory")
  | NotJson why => Raise (ValueError why)
  | Json r => Ok r
  end.

(** The command line both servers build. *)
Definition cmd (eval_script submission_dir test_dataset_path : string)
    (quick_test : bool) : list string :=
  ["python3"; eval_script; submission_dir; test_dataset_path;
   "-o"; submission_dir +:+ "/results.json"]
  ++ (if quick_test then ["-n"; "100"] else []).

(** The dict [run_evaluation] returns: [status] is ['success'] with
    [results] and [eval_time], or ['error'] with [error] and, in
    handler.py, [details]. *)
Inductive eval_result : Type :=
| Success (results : Evaluate.results) (eval_time : float)
| Error (error : string) (details : option string).

End Subprocess.

(** ** handler.py *)

Module Handler.
Import Py Subprocess.

(** [run_evaluation] of handler.py; [spawn] starts the child for a command
    line. *)
Definition run_evaluation (spawn : list string -> process)
    (submission_dir test_dataset_path : string) (quick_test : bool)
    : eval_result :=
  let p := spawn (cmd "evaluate.py" submission_dir test_dataset_path quick_test) in
  match (_ ← run p 900; json_load (written p)) with
  | Ok results => Success results (measured p)
  | Raise (TimeoutExpired _) => Error "Evaluation timed out (>15 minutes)" None
  | Raise (CalledProcessError _ err) => Error "Evaluation failed" (Some err)
  | Raise e => Error (str_of_exn e) None
  end.

(** The [input] of a RunPod job; a key the dict lacks is [None]. *)
Record job_input : Type := {
  submission_id : option Z;
  submission_s3_key : option string;
  full_name : option string;
  quick_test : option bool
}.

(** [job.get('input', {})] of a job without [input] *)
Definition no_input : job_input :=
  {| submission_id := None; submission_s3_key := None;
     full_name := None; quick_test := None |}.

(** Everything outside the handler that one call meets, in the order it
    meets it. *)
Record env : Type := {
  ensure_test_dataset : result string;
  make_tempdir : result string;
  download_submission : result unit;
  extract_submission : result unit;
  has_predict_py : bool;
  install_requirements : option (result unit);
  spawn : list string -> process;
  unix_time : Z;
  upload_string_to_r2 : result unit;
  cleanup : result unit
}.

(** The dict [handler] returns: [{'error': ...}], the error dict of
    [run_evaluation] handed on as it is, or the success dict. *)
Inductive response : Type :=
| ErrorOnly (error : string)
| HandedOn (r : eval_result)
| Succeeded (submission_id : option Z) (results_s3_key : string)
    (metrics : Evaluate.metrics) (eval_time : float).

(** [with tempfile.TemporaryDirectory() as temp_dir: body]: the removal
    runs when the block is left, also by [return], and can raise. *)
Definition with_tempdir {A} (cleanup : result unit) (body : result A)
    : result A :=
  match cleanup with
  | Ok _ => body
  | Raise e => Raise e
  end.

(** [handler] *)
Definition handler (e : env) (job : option job_input) : response :=
  let job_input := default no_input job in
  let submission_id := submission_id job_input in
  let submission_s3_key := submission_s3_key job_input in
  let full_name := default "Unknown" (full_name job_input) in
  let quick_test := default false (quick_test job_input) in
  match submission_s3_key with
  | None | Some EmptyString =>
      ErrorOnly "Missing submission_s3_key in job input"
  | Some _ =>
      let body :=
        test_dataset_path ← ensure_test_dataset e;
        temp_dir ← make_tempdir e;
        with_tempdir (cleanup e)
          (_ ← download_submission e;
           let submission_dir := temp_dir +:+ "/submission" in
           _ ← extract_submission e;
           if negb (has_predict_py e) then
             Ok (ErrorOnly "predict.py not found in submission")
           else
             _ ← (match install_requirements e with
                  | None => Ok tt
                  | Some r => r
                  end);
             match run_evaluation (spawn e) submission_dir test_dataset_path
                     quick_test with
             | Error err details => Ok (HandedOn (Error err details))
             | Success res eval_time =>
                 let metrics := Evaluate.metrics_of res in
                 let results_s3_key :=
                   "results/" +:+ full_name +:+ "/" +:+ pretty (unix_time e)
                   +:+ "/results.json" in
                 _ ← upload_string_to_r2 e;
                 Ok (Succeeded submission_id results_s3_key metrics eval_time)
             end) in
      match body with
      | Ok r => r
      | Raise ex => ErrorOnly (str_of_exn ex)
      end
  end.

(** [runpod_handler] *)
Definition runpod_handler (e : env) (event : option job_input) : response :=
  handler e event.

End Handler.

(** ** api_server.py *)

Module ApiServer.
Import Py Subprocess.

(** [run_evaluation] of api_server.py *)
Definition run_evaluation (spawn : list string -> process)
    (submission_dir test_dataset_path : string) (quick_test : bool)
    : eval_result :=
  let p := spawn (cmd "evaluate.py" submission_dir test_dataset_path quick_test) in
  match (_ ← run p 900; json_load (written p)) with
  | Ok results => Success results (measured p)
  | Raise (TimeoutExpired _) => Error "Evaluation timed out after 15 minutes" None
  | Raise e => Error (str_of_exn e) None
  end.

(** The four values [jobs[job_id]['status']] takes. *)
Inductive status : Type := queued | processing | completed | failed.

#[global] Instance status_eq_dec : EqDecision status.
Proof. solve_decision. Defined.

(** [jobs[job_id]['results']] of a completed job *)
Record job_results : Type := {
  results_submission_id : Z;
  results_metrics : Evaluate.metrics;
  results_s3_key : string;
  results_eval_time : float
}.

(** A job record, the dict [submit_evaluation] creates. *)
Record job : Type := {
  job_id : string;
  job_status : status;
  submission_id : Z;
  full_name : string;
  created_at : string;
  started_at : option string;
  completed_at : option string;
  results : option job_results;
  error : option string
}.

(** [EvaluationRequest] *)
Record EvaluationRequest : Type := {
  request_submission_id : Z;
  submission_s3_key : string;
  request_full_name : string;
  quick_test : bool
}.

(** The server's memory. The job dicts live on [heap], each at the address
    that is its index; [jobs] maps a job id to the address of its dict, so a
    dict reached from two places is one dict. Nothing is ever freed. *)
Record server : Type := {
  jobs : gmap string nat;
  heap : list job
}.

(** A new dict on the heap; its address is returned. *)
Definition alloc (j : job) : M server nat := fun s =>
  ({| jobs := jobs s; heap := heap s ++ [j] |}, Ok (length (heap s))).

(** [jobs[job_id]]: the address of the job's dict, or [KeyError]. *)
Definition lookup_job (id : string) : M server nat := fun s =>
  match jobs s !! id with
  | Some a => (s, Ok a)
  | None => (s, Raise (KeyError id))
  end.

(** Assignments to keys of the dict at address [a]; an address that
    [alloc] handed out is on the heap. *)
Definition update_at (a : nat) (f : job -> job) : M server unit := fun s =>
  match heap s !! a with
  | Some j => ({| jobs := jobs s; heap := <[a := f j]> (heap s) |}, Ok tt)
  | None => (s, Ok tt)
  end.

(** A block [jobs[job_id][k1] = v1; jobs[job_id][k2] = v2; ...] under the
    lock: [KeyError] at the first lookup when the id is not in [jobs]. *)
Definition write_job (id : string) (f : job -> job) : M server unit :=
  a ← lookup_job id;
  update_at a f.

(** [status = 'processing'; started_at = now] *)
Definition set_processing (now : string) (j : job) : job :=
  {| job_id := job_id j; job_status := processing;
     submission_id := submission_id j; full_name := full_name j;
     created_at := created_at j; started_at := Some now;
     completed_at := completed_at j; results := results j;
     error := error j |}.

(** [status = 'failed'; error = err; completed_at = now] *)
Definition set_failed (err now : string) (j : job) : job :=
  {| job_id := job_id j; job_status := failed;
     submission_id := submission_id j; full_name := full_name j;
     created_at := created_at j; started_at := started_at j;
     completed_at := Some now; results := results j;
     error := Some err |}.

(** [status = 'completed'; results = res; completed_at = now] *)
Definition set_completed (res : job_results) (now : string) (j : job) : job :=
  {| job_id := job_id j; job_status := completed;
     submission_id := submission_id j; full_name := full_name j;
     created_at := created_at j; started_at := started_at j;
     completed_at := Some now; results := Some res;
     error := error j |}.

(** The two completion writes of [process_evaluation], each one block under
    the lock. *)
Definition fail_job (id err now : string) : M server unit :=
  write_job id (set_failed err now).

Definition complete_job (id : string) (res : job_results) (now : string)
    : M server unit :=
  write_job id (set_completed res now).

(** [submit_evaluation]: [id] is the fresh [uuid4], [now] the clock. The
    background task is scheduled by the framework and runs later. *)
Definition submit_evaluation (id : string) (request : EvaluationRequest)
    (now : string) : M server string :=
  a ← alloc {| job_id := id; job_status := queued;
               submission_id := request_submission_id request;
               full_name := request_full_name request;
               created_at := now; started_at := None;
               completed_at := None; results := None; error := None |};
  _ ← modify (fun s => {| jobs := <[id := a]> (jobs s); heap := heap s |});
  mret id.

(** [get_job_status]: [jobs[job_id].copy()], a new dict with the same
    items; its address is what the caller holds. *)
Definition get_job_status (id : string) : M server nat := fun s =>
  match jobs s !! id with
  | None => (s, Raise (HTTPException 404 "Job not found"))
  | Some a =>
      match heap s !! a with
      | Some j => alloc j s
      | None => (s, Raise (KeyError id))
      end
  end.

(** [delete_job] *)
Definition delete_job (id : string) : M server unit := fun s =>
  match jobs s !! id with
  | None => (s, Raise (HTTPException 404 "Job not found"))
  | Some _ => ({| jobs := delete id (jobs s); heap := heap s |}, Ok tt)
  end.

(** [list_jobs]: [len(jobs)] and [list(jobs.values())], the addresses of
    the job dicts themselves. The order of a [gmap] stands for the
    insertion order of the dict. *)
Definition list_jobs : M server (nat * list nat) := fun s =>
  (s, Ok (size (jobs s), (map_to_list (jobs s)).*2)).

(** What the caller reads in a dict it holds. *)
Definition read (s : server) (a : nat) : option job := heap s !! a.

(** Everything outside the server that one run of [process_evaluation]
    meets, in the order it meets it. *)
Record run_env : Type := {
  now_started : string;
  ensure_test_dataset : result string;
  make_tempdir : result string;
  download_submission : result unit;
  extract_submission : result unit;
  has_predict_py : bool;
  install_requirements : option (result unit);
  spawn : list string -> process;
  unix_time : Z;
  put_object : result unit;
  now_finished : string;
  cleanup : result unit;
  now_failed : string
}.

(** [with tempfile.TemporaryDirectory() as temp_dir: body]: the directory
    is removed when the block is left, by its end, a [return] or an
    exception, and the removal can raise. *)
Definition with_tempdir {A} (cleanup : result unit) (body : M server A)
    : M server A := fun s =>
  match body s with
  | (s', Ok a) =>
      match cleanup with
      | Ok _ => (s', Ok a)
      | Raise e => (s', Raise e)
      end
  | (s', Raise e) =>
      match cleanup with
      | Ok _ => (s', Raise e)
      | Raise e' => (s', Raise e')
      end
  end.

(** [s.replace(' ', '_')] *)
Fixpoint replace_spaces (s : string) : string :=
  match s with
  | EmptyString => EmptyString
  | String c s' =>
      String (if Ascii.eqb c " " then "_"%char else c) (replace_spaces s')
  end.

(** [process_evaluation], the background task of one job. *)
Definition process_evaluation (env : run_env) (id : string)
    (request : EvaluationRequest) : M server unit :=
  try_except
    (_ ← write_job id (set_processing (now_started env));
     test_dataset_path ← lift (ensure_test_dataset env);
     temp_dir ← lift (make_tempdir env);
     with_tempdir (cleanup env)
       (_ ← lift (download_submission env);
        let submission_dir := temp_dir +:+ "/submission" in
        _ ← lift (extract_submission env);
        _ ← (if has_predict_py env then mret tt
             else raise (FileNotFoundError "predict.py not found in submission"));
        _ ← (match install_requirements env with
             | None => mret tt
             | Some r => lift r
             end);
        match run_evaluation (spawn env) submission_dir test_dataset_path
                (quick_test request) with
        | Error err _ => fail_job id err (now_finished env)
        | Success res eval_time =>
            let metrics := Evaluate.metrics_of res in
            let results_s3_key :=
              "results/" +:+ replace_spaces (request_full_name request)
              +:+ "/" +:+ pretty (unix_time env) +:+ "/results.json" in
            _ ← lift (put_object env);
            complete_job id
              {| results_submission_id := request_submission_id request;
                 results_metrics := metrics;
                 results_s3_key := results_s3_key;
                 results_eval_time := eval_time |}
              (now_finished env)
        end))
    (fun e => fail_job id (str_of_exn e) (now_failed env)).

(** [j['status'] in ['queued', 'processing']] *)
Definition is_active (j : job) : bool :=
  match job_status j with
  | queued | processing => true
  | completed | failed => false
  end.

(** [root], the health check: [active_jobs] is the number of job dicts
    whose status is queued or processing. *)
Definition root (s : server) : nat :=
  length (List.filter
            (fun a => match heap s !! a with
                      | Some j => is_active j
                      | None => false
                      end)
            (map_to_list (jobs s)).*2).

End ApiServer.

(** ** Position strings, as the specification words them *)

Module PositionString.
Import Py.

(** Modelled from the spec: the repository has no function that decides
    whether a piece-placement string is well formed. The width of a rank is
    the sum of its digit runs plus one per occupied square; a character that
    is a digit for [isdigit] and has no value counts as neither. *)
Fixpoint rank_width (rank : string) : option nat :=
  match rank with
  | EmptyString => Some 0
  | String c rest =>
      match rank_width rest with
      | None => None
      | Some w =>
          if is_ascii_digit c then Some (code c - 48 + w)
          else if isdigit c then None
          else Some (1 + w)
      end
  end.

(** Modelled from the spec: eight ranks separated by ["/"], each of
    width eight. *)
Definition well_formed (s : string) : bool :=
  let ranks := split_on "/" s in
  (length ranks =? 8) && forallb (fun r => bool_decide (rank_width r = Some 8)) ranks.

(** Modelled from the spec: a board symbol is the empty-square symbol or any
    character that is neither a digit nor the rank separator. *)
Definition is_symbol (c : ascii) : bool :=
  negb (isdigit c) && negb (Ascii.eqb c "/").

(** The digit that writes a run of [n] empty squares, [n] below ten. *)
Definition digit (n : nat) : ascii := ascii_of_nat (48 + n).

Definition flush (run : nat) : string :=
  match run with
  | O => EmptyString
  | _ => String (digit run) EmptyString
  end.

(** Modelled from the spec: the repository has no function that builds a
    position string. One rank is written left to right, a maximal run of
    empty squares as its length and an occupied square as its symbol;
    [run] counts the empty squares not yet written. *)
Fixpoint encode_rank (run : nat) (cells : list ascii) : string :=
  match cells with
  | [] => flush run
  | c :: rest =>
      if Ascii.eqb c "." then encode_rank (S run) rest
      else flush run +:+ String c (encode_rank 0 rest)
  end.

(** The board cut into rows of [width] squares; [n] bounds the number of
    rows. *)
Fixpoint rows (n width : nat) (board : list ascii) : list (list ascii) :=
  match n with
  | O => []
  | S n' => take width board :: rows n' width (drop width board)
  end.

(** ["/".join(ranks)] *)
Fixpoint join (ranks : list string) : string :=
  match ranks with
  | [] => EmptyString
  | [r] => r
  | r :: rest => r +:+ String "/" (join rest)
  end.

(** Modelled from the spec: the position string of a board of 64 symbols,
    eight ranks of eight squares. *)
Definition board_to_fen (board : list ascii) : string :=
  join (map (encode_rank 0) (rows 8 8 board)).

End PositionString.

(** ** Reading a run of the evaluation loop *)

Module Trace.
Import Py Evaluate.

(** The label of the image is a text, so the loop reaches the predictor. *)
Definition readable (d : dataset) (img : string) : bool :=
  match label_of d img with
  | Text _ => true
  | _ => false
  end.

(** The validity test of the loop, [not v or not isinstance(v, str)]: the
    value is false or no [str]; testing its truth can raise. *)
Definition invalid (v : pyval) : ending bool :=
  t ← truthy v; mret (negb t || negb (is_str v)).

(** The [Exception] that the [try] block of the loop catches, by its
    [str()]: the call raised it, or the truth test of what it returned. *)
Definition caught (o : outcome) : option string :=
  match o with
  | Raises msg => Some msg
  | Returns v _ =>
      match truthy v with
      | Raised e => Some (str_of_exn e)
      | _ => None
      end
  | Exits _ => None
  end.

(** The raise outside [Exception] that ends the loop at this call: from the
    call, or from the truth test of what it returned. *)
Definition exits (o : outcome) : option exit :=
  match o with
  | Exits x => Some x
  | Returns v _ =>
      match truthy v with
      | Exited x => Some x
      | _ => None
      end
  | Raises _ => None
  end.

(** The same for the test call, whose prints also take the length and a
    slice of a true value. *)
Definition test_exits (o : outcome) : option exit :=
  match o with
  | Exits x => Some x
  | Returns v _ =>
      match truthy v with
      | Exited x => Some x
      | Returned true =>
          match display v with
          | Exited x => Some x
          | _ => None
          end
      | _ => None
      end
  | Raises _ => None
  end.

(** The call is a failure of the sample: it raised an [Exception], or it
    returned an invalid value (one that is false or no [str], or whose
    truth test raises an [Exception]). *)
Definition failure (o : outcome) : bool :=
  match o with
  | Raises _ => true
  | Returns v _ =>
      match invalid v with
      | Returned b => b
      | Raised _ => true
      | Exited _ => false
      end
  | Exits _ => false
  end.

(** The clock reading that the loop appends to [timing] for the call: the
    call returned and the truth test of its value raised nothing. *)
Definition elapsed_of (o : outcome) : option float :=
  match o with
  | Returns v elapsed =>
      match truthy v with
      | Returned _ => Some elapsed
      | _ => None
      end
  | _ => None
  end.

(** The entry [p] is what the loop appends for the call [(img, o)]. *)
Definition records (p : prediction) (call : string * outcome) : Prop :=
  image p = call.1 /\
  match call.2 with
  | Raises msg =>
      error p = Some msg /\ correct p = false /\
      piece_accuracy p = 0%float /\ time_seconds p = 0%float
  | Returns v elapsed =>
      match invalid v with
      | Returned true =>
          time_seconds p = elapsed /\
          error p = Some ("Invalid output type: " +:+ type_repr v) /\
          correct p = false /\ piece_accuracy p = 0%float
      | Returned false => time_seconds p = elapsed /\ error p = None
      | Raised e =>
          error p = Some (str_of_exn e) /\ correct p = false /\
          piece_accuracy p = 0%float /\ time_seconds p = 0%float
      | Exited _ => False
      end
  | Exits _ => False
  end.

(** The world after one call of the predictor on [img]. *)
Definition after_call {PS} (predict_func : PS -> string -> outcome * PS)
    (img : string) (w : world) : world :=
  {| pstate := (predict_func (pstate w) img).2;
     calls := calls w ++ [(img, (predict_func (pstate w) img).1)] |}.

(** The test call of a run: one call on the first image, none when there
    is no image. *)
Definition test_call {PS} (predict_func : PS -> string -> outcome * PS)
    (files : list string) (w : world) : list (string * outcome) :=
  match files with
  | [] => []
  | first :: _ => [(first, (predict_func (pstate w) first).1)]
  end.

(** The world after the test call. *)
Definition after_test {PS} (predict_func : PS -> string -> outcome * PS)
    (files : list string) (w : world) : world :=
  match files with
  | [] => w
  | first :: _ => after_call predict_func first w
  end.

(** The raise outside [Exception] that leaves the test block, when there
    is one. *)
Definition test_left {PS} (predict_func : PS -> string -> outcome * PS)
    (files : list string) (w : world) : option exit :=
  match files with
  | [] => None
  | first :: _ => test_exits (predict_func (pstate w) first).1
  end.

(** Code-point order on names, as a relation. *)
Definition leb_rel (a b : string) : Prop := String.leb a b = true.

(** All-zero metrics. *)
Definition zero_metrics : metrics :=
  {| total_images := 0; correct_predictions := 0; accuracy := 0%float;
     avg_inference_time := 0%float; total_time := 0%float;
     avg_piece_accuracy := 0%float |}.

End Trace.

(** ** Concrete inputs *)

Module Examples.
Import Py Evaluate.

Definition start_position : string :=
  "rnbqkbnr/pppppppp/8/8/8/8/PPPPPPPP/RNBQKBNR".

(** A predictor that plays a script: its state is the number of calls made
    so far, and the n-th call does what the n-th entry says. *)
Definition scripted (script : list outcome) (n : nat) (img : string)
    : outcome * nat :=
  (nth n script (Raises "script exhausted"), S n).

(** What a predictor hands back when it returns a numpy array of several
    elements and no string: testing the truth of the array raises. *)
Definition ndarray : pyval :=
  VObj "numpy.ndarray"
    (Raised (ValueError "The truth value of an array with more than one element is ambiguous. Use a.any() or a.all()"))
    (Returned tt).

(** A directory with four images and one macOS metadata file; [c.png] has
    no label and the label of [d.png] does not decode. *)
Definition sample_dir : dataset :=
  {| glob_png := ["c.png"; "b.png"; "._a.png"; "a.png"; "d.png"];
     label_of := fun name =>
       if String.eqb name "a.png" then Text start_position
       else if String.eqb name "b.png" then Text (start_position +:+ " w KQkq - 0 1")
       else if String.eqb name "d.png" then Undecodable
       else Missing |}.

(** A directory with one labelled image. *)
Definition single_dir : dataset :=
  {| glob_png := ["a.png"]; label_of := fun _ => Text start_position |}.

Definition fresh_world : world := {| pstate := 0; calls := [] |}.

End Examples.

Module ServerExamples.
Import Py Subprocess ApiServer.

Definition request1 : EvaluationRequest :=
  {| request_submission_id := 7;
     submission_s3_key := "submissions/ada/1/submission.tar.gz";
     request_full_name := "Ada Lovelace";
     quick_test := false |}.

Definition empty_server : server := {| jobs := ∅; heap := [] |}.

Definition no_results : Evaluate.results :=
  {| Evaluate.predictions := []; Evaluate.timing := [];
     Evaluate.metrics_of := Trace.zero_metrics |}.

(** A child that exits with status 0 after [secs] seconds and leaves a
    results file. *)
Definition child (secs : Q) : process :=
  {| seconds := secs; returncode := 0; stderr := "";
     written := Json no_results; measured := 12.5%float |}.

(** A run in which every step outside the server succeeds, but for the
    child and the removal of the temporary directory, which are given. *)
Definition env_with (p : process) (cleanup_result : result unit) : run_env :=
  {| now_started := "12:00:01";
     ensure_test_dataset := Ok "/workspace/dataset_test";
     make_tempdir := Ok "/tmp/tmp1";
     download_submission := Ok tt;
     extract_submission := Ok tt;
     has_predict_py := true;
     install_requirements := None;
     spawn := fun _ => p;
     unix_time := 1700000000;
     put_object := Ok tt;
     now_finished := "12:00:14";
     cleanup := cleanup_result;
     now_failed := "12:00:15" |}.

(** The server after one submission. *)
Definition one_job : server :=
  (submit_evaluation "job-1" request1 "12:00:00" empty_server).1.

(** The same for the handler: every step succeeds, but for the test for
    [predict.py] and the removal of the temporary directory. *)
Definition handler_env (predict_py : bool) (cleanup_result : result unit)
    : Handler.env :=
  {| Handler.ensure_test_dataset := Ok "/tmp/dataset_test";
     Handler.make_tempdir := Ok "/tmp/tmp1";
     Handler.download_submission := Ok tt;
     Handler.extract_submission := Ok tt;
     Handler.has_predict_py := predict_py;
     Handler.install_requirements := None;
     Handler.spawn := fun _ => child 12;
     Handler.unix_time := 1700000000;
     Handler.upload_string_to_r2 := Ok tt;
     Handler.cleanup := cleanup_result |}.

Definition ada_input : Handler.job_input :=
  {| Handler.submission_id := Some 7%Z;
     Handler.submission_s3_key := Some "submissions/ada.tar.gz";
     Handler.full_name := Some "Ada Lovelace";
     Handler.quick_test := None |}.

End ServerExamples.

(** ** The server's memory under a sequence of operations *)

Module Registry.
Import Py Subprocess ApiServer.

(** What touches the server's memory: the four endpoints, a whole
    background task, and one block of assignments to a job dict under the
    lock, as a background task makes them between the steps of others. *)
Inductive op : Type :=
| Submit (id : string) (request : EvaluationRequest) (now : string)
| Status (id : string)
| Delete (id : string)
| ListJobs
| Write (id : string) (f : job -> job)
| Process (env : run_env) (id : string) (request : EvaluationRequest).

Definition apply (o : op) (s : server) : server :=
  match o with
  | Submit id request now => (submit_evaluation id request now s).1
  | Status id => (get_job_status id s).1
  | Delete id => (delete_job id s).1
  | ListJobs => (list_jobs s).1
  | Write id f => (write_job id f s).1
  | Process env id request => (process_evaluation env id request s).1
  end.

Definition run_ops (ops : list op) (s : server) : server :=
  fold_left (fun s o => apply o s) ops s.

(** Every address in [jobs] is on the heap. *)
Definition well_formed (s : server) : Prop :=
  forall id a, jobs s !! id = Some a -> a < length (heap s).

(** The address [c] is on the heap and no job dict lives there: it is a
    caller's own dict. *)
Definition private (c : nat) (s : server) : Prop :=
  (c < length (heap s)) /\
  (forall id a, jobs s !! id = Some a -> a < length (heap s) /\ a <> c).

(** The computation keeps the property [P] of the server's memory. *)
Definition stable {A} (P : server -> Prop) (m : M server A) : Prop :=
  forall s, P s -> P (m s).1.

(** The dict at [c] is a caller's own and reads [v]. *)
Definition holds (c : nat) (v : option job) (s : server) : Prop :=
  private c s /\ read s c = v.

(** The server with the dict at address [a] changed by [f]. *)
Definition update (a : nat) (f : job -> job) (s : server) : server :=
  {| jobs := jobs s; heap := alter f a (heap s) |}.

(** The steps of the background task inside the temporary directory and
    before the evaluation, in order: download, extraction, the test for
    [predict.py], the installation of the requirements. *)
Definition setup (env : run_env) : result unit :=
  _ ← download_submission env;
  _ ← extract_submission env;
  _ ← (if has_predict_py env then Ok tt
       else Raise (FileNotFoundError "predict.py not found in submission"));
  match install_requirements env with
  | None => Ok tt
  | Some r => r
  end.

(** The exception that leaves a [with] block whose body raised [e]: the
    one of the removal of the directory, when that raises too. *)
Definition leaving (cleanup : result unit) (e : exn) : exn :=
  match cleanup with
  | Ok _ => e
  | Raise e' => e'
  end.

(** The [results] dict the background task stores for a child that
    succeeded. *)
Definition stored_results (env : run_env) (request : EvaluationRequest)
    (res : Evaluate.results) (eval_time : float) : job_results :=
  {| results_submission_id := request_submission_id request;
     results_metrics := Evaluate.metrics_of res;
     results_s3_key :=
       "results/" +:+ replace_spaces (request_full_name request)
       +:+ "/" +:+ pretty (unix_time env) +:+ "/results.json";
     results_eval_time := eval_time |}.

(** The job dict after a whole background task, read off the steps of
    [process_evaluation] one after the other; [j] is the dict before. *)
Definition final_job (env : run_env) (request : EvaluationRequest) (j : job)
    : job :=
  let j1 := set_processing (now_started env) j in
  let failed_with e := set_failed (str_of_exn e) (now_failed env) in
  match ensure_test_dataset env with
  | Raise e => failed_with e j1
  | Ok dataset =>
      match make_tempdir env with
      | Raise e => failed_with e j1
      | Ok temp_dir =>
          match setup env with
          | Raise e => failed_with (leaving (cleanup env) e) j1
          | Ok _ =>
              match run_evaluation (spawn env) (temp_dir +:+ "/submission")
                      dataset (quick_test request) with
              | Error err _ =>
                  let j2 := set_failed err (now_finished env) j1 in
                  match cleanup env with
                  | Ok _ => j2
                  | Raise e => failed_with e j2
                  end
              | Success res eval_time =>
                  match put_object env with
                  | Raise e => failed_with (leaving (cleanup env) e) j1
                  | Ok _ =>
                      let j2 :=
                        set_completed (stored_results env request res eval_time)
                          (now_finished env) j1 in
                      match cleanup env with
                      | Ok _ => j2
                      | Raise e => failed_with e j2
                      end
                  end
              end
          end
      end
  end.

End Registry.

(** ** evaluate.py run as a script *)

Module Main.
Import Py Subprocess Evaluate.

(** What [save_results] does: it writes the results, or opening or writing
    the output file raises and leaves the file [found]. *)
Inductive saving : Type :=
| Saved
| SaveFailed (e : exn) (found : result_file).

(** The [__main__] block: import [predict] from the submission, run
    [evaluate_submission], print the summary and save the results. The
    value is the exit status of the interpreter and the file at the output
    path afterwards. That path is [results.json] in the submission
    directory; [stale] is what the submission has there before anything is
    saved (what it shipped, or what its code wrote). An [Exception] that
    nothing catches ends the process with exit status 1; a raise outside
    [Exception], from the import or from the run, ends it with the status
    of that raise, which is 0 for [sys.exit()]. *)
Definition main {PS} (import_predict : ending unit)
    (predict : PS -> string -> outcome * PS) (d : dataset)
    (max_samples : option Z) (w : world) (stale : result_file)
    (save : saving) : Z * result_file :=
  match import_predict with
  | Raised _ => (1%Z, stale)
  | Exited x => (exit_status x, stale)
  | Returned _ =>
      match evaluate_submission predict d max_samples w with
      | (_, Raised _) => (1%Z, stale)
      | (_, Exited x) => (exit_status x, stale)
      | (_, Returned res) =>
          match save with
          | SaveFailed _ found => (1%Z, found)
          | Saved => (0%Z, Json res)
          end
      end
  end.

(** The raise outside [Exception] that ends the script before it saves
    anything, when there is one: from the import or from the run. *)
Definition left_early {PS} (import_predict : ending unit)
    (predict : PS -> string -> outcome * PS) (d : dataset)
    (max_samples : option Z) (w : world) : option exit :=
  match import_predict with
  | Exited x => Some x
  | Raised _ => None
  | Returned _ =>
      match (evaluate_submission predict d max_samples w).2 with
      | Exited x => Some x
      | _ => None
      end
  end.

(** The child process that one run of the script is: it needs [secs]
    seconds and the parent measures [clock] around it. *)
Definition child (secs : Q) (clock : float) (err : string)
    (outcome : Z * result_file) : process :=
  {| seconds := secs; returncode := outcome.1; stderr := err;
     written := outcome.2; measured := clock |}.

End Main.

(** Strings that cannot make the scoring raise. *)

Module Clean.
Import Py.

(** A digit for [isdigit] with no value for [int]. *)
Definition superscript (c : ascii) : bool :=
  isdigit c && negb (is_ascii_digit c).

(** No character of the string is such a digit. *)
Fixpoint no_superscript (s : string) : bool :=
  match s with
  | EmptyString => true
  | String c s' => negb (superscript c) && no_superscript s'
  end.

(** Every character of the string is whitespace. *)
Fixpoint all_space (s : string) : bool :=
  match s with
  | EmptyString => true
  | String c s' => isspace c && all_space s'
  end.

(** No character of the string is whitespace. *)
Fixpoint no_space (s : string) : bool :=
  match s with
  | EmptyString => true
  | String c s' => negb (isspace c) && no_space s'
  end.

(** A prediction the scoring accepts: no superscript digit, and not a
    string of whitespace that holds a space. *)
Definition scorable (s : string) : bool :=
  no_superscript s && negb (contains " " s && all_space s).

(** The squares a rank expands to, counted without expanding it. *)
Fixpoint cells_of_rank (rank : string) : nat :=
  match rank with
  | EmptyString => 0
  | String c rest =>
      (if is_ascii_digit c then code c - 48 else 1) + cells_of_rank rest
  end.

End Clean.

(** * Properties *)

(** ** Strings *)

Section StringFacts.
Import Py.

Lemma lstrip_head s :
  lstrip s = EmptyString \/
  exists c t, lstrip s = String c t /\ isspace c = false.
Proof.
  induction s as [|c s IH]; simpl; [by left|].
  destruct (isspace c) eqn:Hc; [exact IH|].
  right. by exists c, s.
Qed.

Lemma rstrip_head c t :
  isspace c = false -> exists t', rstrip (String c t) = String c t'.
Proof.
  intros Hc. simpl. destruct (rstrip t) as [|d r].
  - rewrite Hc. by eexists.
  - by eexists.
Qed.

Lemma strip_head s :
  strip s = EmptyString \/
  exists c t, strip s = String c t /\ isspace c = false.
Proof.
  unfold strip. destruct (lstrip_head s) as [-> | (c & t & -> & Hc)].
  - by left.
  - right. destruct (rstrip_head c t Hc) as [t' ->]. by exists c, t'.
Qed.

Lemma split_head c t : isspace c = false -> split (String c t) <> [].
Proof.
  intros Hc. simpl. rewrite Hc.
  destruct t as [|c' t']; [done|].
  destruct (isspace c'); [done|].
  by destruct (split (String c' t')).
Qed.

End StringFacts.

(** ** The metric engine *)

Section MetricFacts.
Import Py Evaluate PositionString.

Lemma extract_strip_ok s :
  exists t, extract_piece_positions (strip s) = Ok t.
Proof.
  unfold extract_piece_positions.
  destruct (strip_head s) as [-> | (c & t & -> & Hc)]; [by eexists|].
  destruct (contains " " (String c t)); [|by eexists].
  pose proof (split_head c t Hc) as Hne.
  destruct (split (String c t)) as [|w ws]; [done|]. by eexists.
Qed.

Lemma compare_positions_ok p g :
  exists b, compare_positions p g = Ok b.
Proof.
  unfold compare_positions.
  destruct (extract_strip_ok p) as [p' ->], (extract_strip_ok g) as [g' ->].
  simpl. by eexists.
Qed.

Lemma is_ascii_digit_isdigit c : is_ascii_digit c = true -> isdigit c = true.
Proof. unfold isdigit. by intros ->. Qed.

(** One character of a rank appends its cells to the board. *)
Lemma fen_char_digit board c :
  is_ascii_digit c = true ->
  fen_char board c = Ok (board ++ repeat "."%char (code c - 48)).
Proof.
  intros Hc. unfold fen_char, int_of_char.
  by rewrite (is_ascii_digit_isdigit c Hc), Hc.
Qed.

Lemma fen_char_symbol board c :
  isdigit c = false -> fen_char board c = Ok (board ++ [c]).
Proof. intros Hc. unfold fen_char. by rewrite Hc. Qed.

Lemma fen_rank_width rank : forall n board,
  rank_width rank = Some n ->
  exists cells, fen_rank rank board = Ok (board ++ cells) /\ length cells = n.
Proof.
  induction rank as [|c rest IH]; intros n board Hw; simpl in *.
  - exists []. simplify_eq. by rewrite app_nil_r.
  - destruct (rank_width rest) as [w|] eqn:Hrest; [|done].
    destruct (is_ascii_digit c) eqn:Hd.
    + rewrite (fen_char_digit _ _ Hd). simpl.
      destruct (IH w (board ++ repeat "."%char (code c - 48)) eq_refl)
        as (cells & -> & Hlen).
      exists (repeat "."%char (code c - 48) ++ cells).
      rewrite app_assoc. split; [done|].
      rewrite length_app, repeat_length. by simplify_eq.
    + destruct (isdigit c) eqn:Hi; [done|].
      rewrite (fen_char_symbol _ _ Hi). simpl.
      destruct (IH w (board ++ [c]) eq_refl) as (cells & -> & Hlen).
      exists (c :: cells). rewrite <- app_assoc. split; [done|].
      simpl. by simplify_eq.
Qed.

Lemma fen_ranks_width ranks : forall board,
  Forall (fun r => rank_width r = Some 8) ranks ->
  exists cells,
    fen_ranks ranks board = Ok (board ++ cells) /\
    length cells = 8 * length ranks.
Proof.
  induction ranks as [|r rest IH]; intros board Hall; simpl.
  - exists []. by rewrite app_nil_r.
  - inversion Hall as [|? ? Hr Hrest]; subst.
    destruct (fen_rank_width r 8 board Hr) as (cells & -> & Hlen). simpl.
    destruct (IH (board ++ cells) Hrest) as (cells' & -> & Hlen').
    exists (cells ++ cells'). rewrite app_assoc. split; [done|].
    rewrite length_app. lia.
Qed.

Lemma well_formed_spec s :
  well_formed s = true ->
  length (split_on "/" s) = 8 /\
  Forall (fun r => rank_width r = Some 8) (split_on "/" s).
Proof.
  unfold well_formed. intros H. apply andb_prop in H as [Hlen Hall].
  apply Nat.eqb_eq in Hlen. split; [done|].
  apply List.Forall_forall. intros r Hr.
  rewrite forallb_forall in Hall.
  specialize (Hall r Hr). by apply bool_decide_eq_true in Hall.
Qed.

Lemma fen_to_board_well_formed s :
  well_formed s = true ->
  exists board, fen_to_board s = Ok board /\ length board = 64.
Proof.
  intros [Hlen Hall]%well_formed_spec. unfold fen_to_board.
  destruct (fen_ranks_width _ [] Hall) as (cells & -> & Hcells).
  exists cells. split; [done|]. rewrite Hcells, Hlen. done.
Qed.

End MetricFacts.

(** ** Building a position string and expanding it again *)

Section RoundTrip.
Import Py Evaluate PositionString.

Lemma digit_is_digit n :
  1 <= n <= 9 ->
  is_ascii_digit (digit n) = true /\ code (digit n) - 48 = n /\
  Ascii.eqb (digit n) "/" = false.
Proof.
  intros Hn.
  assert (n = 1 \/ n = 2 \/ n = 3 \/ n = 4 \/ n = 5 \/ n = 6 \/ n = 7 \/
          n = 8 \/ n = 9) as Hcases by lia.
  repeat destruct Hcases as [-> | Hcases]; try subst n; by vm_compute.
Qed.

Lemma is_symbol_spec c :
  is_symbol c = true -> isdigit c = false /\ Ascii.eqb c "/" = false.
Proof.
  unfold is_symbol. intros [H1 H2]%andb_prop.
  by apply negb_true_iff in H1, H2.
Qed.

Lemma fen_rank_app a : forall b board,
  fen_rank (a +:+ b) board = (board' ← fen_rank a board; fen_rank b board').
Proof.
  induction a as [|c a IH]; intros b board; simpl; [done|].
  destruct (fen_char board c) as [board'|e]; simpl; [apply IH|done].
Qed.

Lemma fen_rank_flush run board :
  run <= 9 -> fen_rank (flush run) board = Ok (board ++ repeat "."%char run).
Proof.
  intros Hrun. destruct run as [|k]; unfold flush; cbn [fen_rank].
  - by rewrite app_nil_r.
  - destruct (digit_is_digit (S k)) as (Hd & Hv & _); [lia|].
    rewrite (fen_char_digit _ _ Hd), Hv. done.
Qed.

Lemma repeat_snoc {A} (x : A) n l : repeat x (S n) ++ l = repeat x n ++ x :: l.
Proof.
  induction n as [|n IH]; simpl; [done|]. f_equal. exact IH.
Qed.

(** Expanding a written rank gives the pending run of empty squares and
    then the cells. *)
Lemma fen_rank_encode cells : forall run board,
  run + length cells <= 9 ->
  Forall (fun c => is_symbol c = true) cells ->
  fen_rank (encode_rank run cells) board
  = Ok (board ++ repeat "."%char run ++ cells).
Proof.
  induction cells as [|c rest IH]; intros run board Hlen Hsym; simpl in *.
  - rewrite app_nil_r. apply fen_rank_flush. lia.
  - inversion Hsym as [|? ? Hc Hrest]; subst.
    destruct (Ascii.eqb c ".") eqn:Hdot.
    + apply Ascii.eqb_eq in Hdot as ->.
      rewrite IH by (done || lia). by rewrite repeat_snoc.
    + rewrite fen_rank_app, fen_rank_flush by lia. simpl.
      destruct (is_symbol_spec c Hc) as [Hnd _].
      rewrite (fen_char_symbol _ _ Hnd). simpl.
      rewrite IH by (done || lia). simpl.
      by rewrite <- !app_assoc.
Qed.

Lemma contains_app c a b :
  contains c (a +:+ b) = contains c a || contains c b.
Proof.
  induction a as [|d a IH]; simpl; [done|]. by rewrite IH, orb_assoc.
Qed.

Lemma contains_flush run : run <= 9 -> contains "/" (flush run) = false.
Proof.
  intros Hrun. destruct run as [|k]; unfold flush; cbn [contains]; [done|].
  destruct (digit_is_digit (S k)) as (_ & _ & ->); [lia|done].
Qed.

(** A written rank holds no rank separator. *)
Lemma contains_encode cells : forall run,
  run + length cells <= 9 ->
  Forall (fun c => is_symbol c = true) cells ->
  contains "/" (encode_rank run cells) = false.
Proof.
  induction cells as [|c rest IH]; intros run Hlen Hsym; simpl in *.
  - apply contains_flush. lia.
  - inversion Hsym as [|? ? Hc Hrest]; subst.
    destruct (Ascii.eqb c ".") eqn:Hdot.
    + apply IH; [lia|done].
    + rewrite contains_app, contains_flush by lia. simpl.
      destruct (is_symbol_spec c Hc) as [_ ->]. simpl.
      apply IH; [lia|done].
Qed.

Lemma split_on_single sep a :
  contains sep a = false -> split_on sep a = [a].
Proof.
  induction a as [|c a IH]; simpl; [done|].
  intros [Hc Ha]%orb_false_elim. by rewrite Hc, (IH Ha).
Qed.

Lemma split_on_field sep a b :
  contains sep a = false ->
  split_on sep (a +:+ String sep b) = a :: split_on sep b.
Proof.
  induction a as [|c a IH]; simpl.
  - intros _. by rewrite Ascii.eqb_refl.
  - intros [Hc Ha]%orb_false_elim. by rewrite Hc, (IH Ha).
Qed.

Lemma split_on_join ranks :
  ranks <> [] ->
  Forall (fun r => contains "/" r = false) ranks ->
  split_on "/" (join ranks) = ranks.
Proof.
  induction ranks as [|r rest IH]; intros Hne Hall; [done|].
  inversion Hall as [|? ? Hr Hrest]; subst.
  destruct rest as [|r' rest'].
  - simpl. by apply split_on_single.
  - change (join (r :: r' :: rest')) with (r +:+ String "/" (join (r' :: rest'))).
    rewrite split_on_field by done. f_equal. by apply IH.
Qed.

Lemma rows_spec n : forall board,
  length board = 8 * n ->
  length (rows n 8 board) = n /\
  Forall (fun row => length row = 8) (rows n 8 board) /\
  concat (rows n 8 board) = board.
Proof.
  induction n as [|n IH]; intros board Hlen; simpl.
  - split; [done|]. split; [constructor|].
    symmetry. apply length_zero_iff_nil. lia.
  - destruct (IH (drop 8 board)) as (Hn & Hall & Hcat).
    { rewrite length_drop. lia. }
    split; [by rewrite Hn|]. split.
    + constructor; [|done]. rewrite length_take. lia.
    + rewrite Hcat. apply take_drop.
Qed.

Lemma fen_ranks_encode rws : forall board,
  Forall (fun row => length row = 8) rws ->
  Forall (fun c => is_symbol c = true) (concat rws) ->
  fen_ranks (map (encode_rank 0) rws) board = Ok (board ++ concat rws).
Proof.
  induction rws as [|row rest IH]; intros board Hlen Hsym; simpl in *.
  - by rewrite app_nil_r.
  - inversion Hlen as [|? ? Hrow Hrest]; subst.
    apply Forall_app in Hsym as [Hsym1 Hsym2].
    rewrite fen_rank_encode by (done || lia). simpl.
    rewrite IH by done. by rewrite app_assoc.
Qed.

Lemma fen_to_board_of_board board :
  length board = 64 ->
  Forall (fun c => is_symbol c = true) board ->
  fen_to_board (board_to_fen board) = Ok board.
Proof.
  intros Hlen Hsym. unfold fen_to_board, board_to_fen.
  destruct (rows_spec 8 board) as (Hn & Hrows & Hcat); [lia|].
  rewrite split_on_join.
  - rewrite fen_ranks_encode; [by rewrite Hcat| done | by rewrite Hcat].
  - intros Hnil. apply (f_equal length) in Hnil.
    rewrite length_map, Hn in Hnil. done.
  - apply Forall_map. 
    assert (Forall (fun row => Forall (fun c => is_symbol c = true) row) (rows 8 8 board)) as Hall.
    { rewrite <- Hcat in Hsym. revert Hsym. generalize (rows 8 8 board).
      induction l as [|row l IHl]; simpl; intros H; [constructor|].
      apply Forall_app in H as [H1 H2]. constructor; [done|by apply IHl]. }
    clear Hcat Hn. induction Hrows as [|row l Hrow Hl IHl]; [constructor|].
    inversion Hall; subst. constructor; [|by apply IHl].
    apply contains_encode; [lia|done].
Qed.

End RoundTrip.

(** ** The evaluation loop *)

Section LoopFacts.
Import Py Evaluate Trace.
Context {PS : Type}.
Variable predict_func : PS -> string -> outcome * PS.

Lemma div_count_succ x n : exists y, div_count x (S n) = Ok y.
Proof. by eexists. Qed.

(** The progress line never divides by zero: an entry was just appended. *)
Lemma progress_ok idx (l : list prediction) p t :
  progress idx (l ++ [p], t) = Ok tt.
Proof.
  unfold progress. destruct ((idx + 1) mod 100 =? 0); [|done].
  cbn [fst]. rewrite length_app, Nat.add_1_r. done.
Qed.

(** The guards of the final metrics cover every division. *)
Lemma final_metrics_total r : exists m, final_metrics r = Ok m.
Proof.
  destruct r as [preds tms]. unfold final_metrics. cbn [fst snd].
  destruct preds as [|p preds]; destruct tms as [|t tms]; by eexists.
Qed.

Lemma final_metrics_total_images r m :
  final_metrics r = Ok m -> total_images m = length r.1.
Proof.
  destruct r as [preds tms]. unfold final_metrics. cbn [fst snd].
  destruct preds as [|p preds]; destruct tms as [|t tms];
    intros H; cbn in H; injection H as <-; reflexivity.
Qed.

Lemma invoke_eq img w :
  invoke predict_func img w
  = (after_call predict_func img w,
     match (predict_func (pstate w) img).1 with
     | Returns v elapsed => Returned (v, elapsed)
     | Raises msg => Raised (Exception msg)
     | Exits x => Exited x
     end).
Proof.
  unfold invoke, after_call.
  destruct (predict_func (pstate w) img) as [[v e|msg|x] s']; done.
Qed.

Lemma invalid_false v :
  invalid v = Returned false -> exists s, v = VStr s /\ s <> EmptyString.
Proof.
  unfold invalid. destruct v as [s| |ty [b|e|x] sh]; cbn; try done.
  - intros [= H]. exists s. split; [done|]. intros ->. done.
  - by destruct b.
Qed.

(** What the [try] block leaves, by what the call did. *)
Lemma predict_image_eq img r w :
  predict_image predict_func img r w
  = (after_call predict_func img w,
     match (predict_func (pstate w) img).1 with
     | Raises msg =>
         Returned (Skip (r.1 ++ [{| image := img; error := Some msg;
                              predicted := None; ground_truth := None;
                              correct := false; piece_accuracy := 0%float;
                              time_seconds := 0%float |}], r.2))
     | Exits x => Exited x
     | Returns v elapsed =>
         match invalid v with
         | Returned true =>
             Returned (Skip (r.1 ++ [{| image := img;
                                error := Some ("Invalid output type: " +:+ type_repr v);
                                predicted := None; ground_truth := None;
                                correct := false; piece_accuracy := 0%float;
                                time_seconds := elapsed |}], r.2 ++ [elapsed]))
         | Returned false =>
             match v with
             | VStr s => Returned (Valid s elapsed)
             | _ => Returned (Skip r)
             end
         | Raised e =>
             Returned (Skip (r.1 ++ [{| image := img; error := Some (str_of_exn e);
                                  predicted := None; ground_truth := None;
                                  correct := false; piece_accuracy := 0%float;
                                  time_seconds := 0%float |}], r.2))
         | Exited x => Exited x
         end
     end).
Proof.
  unfold predict_image, try_run, mbind, Run_bind. rewrite invoke_eq.
  destruct (predict_func (pstate w) img).1 as [v e|msg|x]; [|done|done].
  unfold run_ending, invalid, ending_bind.
  destruct (truthy v) as [t|e1|x]; [|done|done].
  cbn. destruct (negb t || negb (is_str v)); [done|]. by destruct v.
Qed.

(** One pass of the loop body. An image without a readable label changes
    nothing; otherwise the predictor is called once, and the pass appends
    one entry, or raises while scoring a valid string, or is left by a raise
    outside [Exception]. *)
Lemma evaluate_image_spec d idx img r w w' res :
  evaluate_image predict_func d idx img r w = (w', res) ->
  if readable d img then
    w' = after_call predict_func img w /\
    match res with
    | Returned r' =>
        exists p,
          r' = (r.1 ++ [p],
                r.2 ++ option_list (elapsed_of (predict_func (pstate w) img).1)) /\
          records p (img, (predict_func (pstate w) img).1)
    | Raised _ =>
        failure (predict_func (pstate w) img).1 = false /\
        exits (predict_func (pstate w) img).1 = None
    | Exited x => exits (predict_func (pstate w) img).1 = Some x
    end
  else w' = w /\ res = Returned r.
Proof.
  unfold evaluate_image, readable.
  destruct (label_of d img) as [| |contents];
    [by intros [= <- <-] | by intros [= <- <-] |].
  unfold mbind at 1, Run_bind at 1. rewrite predict_image_eq.
  unfold records, failure, exits, elapsed_of. cbn [fst snd].
  destruct (predict_func (pstate w) img).1 as [v e|msg|x].
  - destruct (invalid v) as [[|]|e1|x] eqn:Hv.
    + intros [= <- <-]. split; [done|]. unfold invalid in Hv.
      destruct (truthy v); [|done|done]. cbn [option_list].
      eexists. split; [done|]. cbn. auto.
    + destruct (invalid_false v Hv) as (s & -> & Hs).
      unfold mbind, Run_bind, run_lift. cbn [truthy option_list].
      destruct (compare_positions s (strip contents)) as [b|e1];
        [|intros [= <- <-]; done].
      destruct (calculate_piece_accuracy s (strip contents)) as [acc|e2];
        [|intros [= <- <-]; done].
      destruct (extract_piece_positions s) as [sp|e3];
        [|intros [= <- <-]; done].
      destruct (extract_piece_positions (strip contents)) as [sg|e4];
        [|intros [= <- <-]; done].
      rewrite progress_ok. intros [= <- <-]. split; [done|].
      eexists. split; [done|]. cbn. auto.
    + intros [= <- <-]. split; [done|]. unfold invalid in Hv.
      destruct (truthy v); [done| |done]. cbn. rewrite app_nil_r.
      eexists. split; [done|]. cbn in Hv. injection Hv as ->. cbn. auto.
    + intros [= <- <-]. split; [done|]. unfold invalid in Hv.
      destruct (truthy v); [done|done|]. cbn in Hv. by injection Hv as ->.
  - intros [= <- <-]. split; [done|]. rewrite app_nil_r.
    eexists. split; [done|]. cbn. auto.
  - intros [= <- <-]. done.
Qed.

(** A failure of the sample is recorded and the pass returns. *)
Lemma evaluate_image_failure d idx img r w :
  readable d img = true ->
  failure (predict_func (pstate w) img).1 = true ->
  exists p,
    evaluate_image predict_func d idx img r w
    = (after_call predict_func img w,
       Returned (r.1 ++ [p],
           r.2 ++ option_list (elapsed_of (predict_func (pstate w) img).1))) /\
    records p (img, (predict_func (pstate w) img).1).
Proof.
  intros Hread Hfail.
  destruct (evaluate_image predict_func d idx img r w) as [w' res] eqn:Heq.
  apply evaluate_image_spec in Heq. rewrite Hread in Heq.
  destruct Heq as [-> Hres]. destruct res as [r'|e|x].
  - destruct Hres as (p & -> & Hp). by exists p.
  - destruct Hres. congruence.
  - exfalso. revert Hfail Hres. unfold failure, exits, invalid.
    destruct (predict_func (pstate w) img).1 as [v e|msg|x']; [|done|done].
    by destruct (truthy v).
Qed.

Lemma records_failure p call :
  records p call -> failure call.2 = true ->
  image p = call.1 /\ is_Some (error p) /\ correct p = false /\
  piece_accuracy p = 0%float.
Proof.
  intros [Himg Hrec] Hfail. split; [done|]. unfold failure in Hfail.
  destruct call.2 as [v e|msg|x]; [| |done].
  - destruct (invalid v) as [[|]|e1|x]; try done.
    + destruct Hrec as (_ & -> & -> & ->). eauto.
    + destruct Hrec as (-> & -> & -> & _). eauto.
  - destruct Hrec as (-> & -> & -> & _). eauto.
Qed.

(** The loop, read off a run that returned: the calls it made are the
    images with a readable label, in order, one entry was appended per
    call, and the timing list grew by the clock readings of the calls whose
    [try] block ran to its end. *)
Lemma for_images_spec d files : forall idx r w w' r',
  for_images predict_func d idx files r w = (w', Returned r') ->
  exists log new,
    calls w' = calls w ++ log /\
    r'.1 = r.1 ++ new /\
    r'.2 = r.2 ++ omap elapsed_of log.*2 /\
    log.*1 = List.filter (readable d) files /\
    Forall2 records new log.
Proof.
  induction files as [|img rest IH]; intros idx r w w' r' Hrun; cbn in Hrun.
  - injection Hrun as <- <-. exists [], []. by rewrite !app_nil_r.
  - unfold mbind, Run_bind in Hrun.
    destruct (evaluate_image predict_func d idx img r w) as [w1 res] eqn:Hstep.
    apply evaluate_image_spec in Hstep. cbn [List.filter].
    destruct (readable d img).
    + destruct Hstep as [-> Hres]. destruct res as [r1|e|x]; [|done|done].
      destruct Hres as (p & -> & Hp).
      apply IH in Hrun as (log & new & Hcalls & Hpreds & Htms & Hlog & Hrec).
      cbn [fst snd] in *.
      exists ((img, (predict_func (pstate w) img).1) :: log), (p :: new).
      rewrite Hcalls, Hpreds, Htms. cbn [after_call calls].
      rewrite <- !app_assoc. cbn [fmap list_fmap omap list_omap fst snd].
      repeat split; try done.
      * by destruct (elapsed_of (predict_func (pstate w) img).1).
      * by rewrite <- Hlog.
      * by constructor.
    + destruct Hstep as [-> ->]. by apply IH in Hrun.
Qed.

(** The loop, read off a run that did not return: the calls it made are
    the first images with a readable label, and the last of them is where
    it ended, scoring a valid string that the call returned or leaving by a
    raise outside [Exception]. *)
Lemma for_images_ends d files : forall idx r w w' res,
  for_images predict_func d idx files r w = (w', res) ->
  match res with
  | Returned _ => True
  | _ =>
      exists log img o later,
        calls w' = calls w ++ log ++ [(img, o)] /\
        List.filter (readable d) files = log.*1 ++ img :: later /\
        Forall (fun c => exits c.2 = None) log /\
        match res with
        | Raised _ => failure o = false /\ exits o = None
        | Exited x => exits o = Some x
        | Returned _ => True
        end
  end.
Proof.
  induction files as [|img rest IH]; intros idx r w w' res Hrun; cbn in Hrun.
  - by injection Hrun as <- <-.
  - unfold mbind, Run_bind in Hrun.
    destruct (evaluate_image predict_func d idx img r w) as [w1 res1] eqn:Hstep.
    apply evaluate_image_spec in Hstep. cbn [List.filter].
    destruct (readable d img).
    + destruct Hstep as [-> Hres]. destruct res1 as [r1|e|x].
      * destruct Hres as (p & -> & Hp).
        apply IH in Hrun. destruct res as [r2|e|x]; [done| |].
        all: destruct Hrun as (log & img' & o & later & Hcalls & Hf & Hall & Hend).
        all: exists ((img, (predict_func (pstate w) img).1) :: log), img', o, later.
        all: rewrite Hcalls, Hf; cbn [after_call calls fmap list_fmap fst].
        all: rewrite <- !app_assoc; split; [done|]; split; [done|].
        all: split; [|done]; constructor; [|done]; cbn [snd].
        all: destruct Hp as [_ Hp]; cbn [snd] in Hp; unfold exits, invalid in *.
        all: destruct (predict_func (pstate w) img).1 as [v el|msg|x']; try done.
        all: by destruct (truthy v).
      * injection Hrun as <- <-.
        exists [], img, (predict_func (pstate w) img).1,
          (List.filter (readable d) rest).
        cbn. split; [done|]. split; [done|]. split; [constructor|exact Hres].
      * injection Hrun as <- <-.
        exists [], img, (predict_func (pstate w) img).1,
          (List.filter (readable d) rest).
        cbn. split; [done|]. split; [done|]. split; [constructor|exact Hres].
    + destruct Hstep as [-> ->]. by apply IH in Hrun.
Qed.

End LoopFacts.

(** ** Sorting and slicing *)

Section SelectionFacts.
Import Py Evaluate Trace.

Lemma insert_sorted_perm x l : Permutation (insert_sorted x l) (x :: l).
Proof.
  induction l as [|y l IH]; simpl; [done|].
  destruct (String.leb x y); [done|].
  rewrite IH. apply perm_swap.
Qed.

Lemma insert_sorted_hd x y l :
  leb_rel y x -> HdRel leb_rel y l -> HdRel leb_rel y (insert_sorted x l).
Proof.
  intros Hyx Hhd. destruct l as [|z l]; simpl; [by constructor|].
  destruct (String.leb x z); constructor; [done|].
  by inversion Hhd.
Qed.

Lemma insert_sorted_sorted x l :
  Sorted leb_rel l -> Sorted leb_rel (insert_sorted x l).
Proof.
  induction 1 as [|y l Hl IH Hhd]; simpl; [by repeat constructor|].
  destruct (String.leb x y) eqn:Hxy.
  - constructor; [by constructor|]. by constructor.
  - constructor; [done|]. apply insert_sorted_hd; [|done].
    destruct (String.leb_total x y) as [H|H]; [congruence|done].
Qed.

(** [sorted] sorts: its result is in code-point order and holds the same
    names. *)
Lemma sorted_sorted l : Sorted leb_rel (sorted l) /\ Permutation (sorted l) l.
Proof.
  induction l as [|x l [IH1 IH2]]; simpl; [by split; constructor|].
  split; [by apply insert_sorted_sorted|].
  rewrite insert_sorted_perm. by constructor.
Qed.

(** A positive bound cuts the list to its first elements. *)
Lemma slice_to_pos {A} (l : list A) n :
  (0 < n)%Z -> slice_to l n = take (Z.to_nat n `min` length l) l.
Proof.
  intros Hn. unfold slice_to.
  destruct (0 <=? n)%Z eqn:H0; [|lia].
  destruct (decide (Z.to_nat n <= length l)).
  - by rewrite Nat.min_l.
  - rewrite Nat.min_r by lia. rewrite !take_ge by lia. done.
Qed.

End SelectionFacts.

(** ** One run of [evaluate_submission] *)

Section RunFacts.
Import Py Evaluate Trace.
Context {PS : Type}.
Variable predict_func : PS -> string -> outcome * PS.

(** The test block: one call on the first image; only a raise outside
    [Exception] leaves it otherwise than by its end. *)
Lemma test_prediction_eq files w :
  test_prediction predict_func files w
  = (after_test predict_func files w,
     match test_left predict_func files w with
     | Some x => Exited x
     | None => Returned tt
     end) /\
  calls (after_test predict_func files w)
  = calls w ++ test_call predict_func files w.
Proof.
  unfold test_prediction, try_run, mbind, Run_bind, run_lift, run_ending,
    test_call, after_test, test_left, test_exits.
  destruct files as [|first rest]; cbn [item0].
  - by rewrite app_nil_r.
  - rewrite invoke_eq. split; [|done].
    destruct (predict_func (pstate w) first).1 as [v e|msg|x]; [|done|done].
    destruct (truthy v) as [[|]|e1|x]; [|done|done|done].
    by destruct (display v) as [[]|e1|x].
Qed.

Lemma records_image new log : Forall2 records new log -> map image new = log.*1.
Proof.
  induction 1 as [|p c new log [Hp _] _ IH]; cbn; [done|]. by rewrite Hp, IH.
Qed.

(** A call with an entry did not leave the loop. *)
Lemma records_stays p call : records p call -> exits call.2 = None.
Proof.
  intros [_ Hrec]. unfold exits. destruct call.2 as [v e|msg|x]; [|done|done].
  unfold invalid in Hrec. by destruct (truthy v).
Qed.

(** What the loop drops from the timing list: the calls whose [try] block
    caught an [Exception]. *)
Lemma elapsed_of_caught o :
  exits o = None -> (elapsed_of o = None <-> is_Some (caught o)).
Proof.
  unfold exits, elapsed_of, caught.
  destruct o as [v e|msg|x]; [|by split; eauto|done].
  destruct (truthy v); intros H; split; intros H'; try done; eauto.
Qed.

(** A call that is no failure and does not leave the loop returned a
    non-empty string. *)
Lemma valid_call o :
  failure o = false -> exits o = None ->
  exists s elapsed, o = Returns (VStr s) elapsed /\ s <> EmptyString.
Proof.
  unfold failure, exits. destruct o as [v e|msg|x]; [|done|done].
  intros Hf Hx. destruct (invalid v) as [[|]|e1|x] eqn:Hv; try done.
  - destruct (invalid_false v Hv) as (s & -> & Hs). by exists s, e.
  - unfold invalid in Hv. by destruct (truthy v).
Qed.

(** A run that returned, read off its result: after the test call the
    predictor was called once per image with a readable label, in order;
    [predictions] holds one entry per such call, [timing] the clock
    readings of those whose [try] block ran to its end, [metrics] the final
    metrics of the two lists. *)
Lemma evaluate_submission_spec d max_samples w w' res :
  evaluate_submission predict_func d max_samples w = (w', Returned res) ->
  exists log,
    calls w' = calls w ++ test_call predict_func (image_files d max_samples) w ++ log /\
    log.*1 = List.filter (readable d) (image_files d max_samples) /\
    Forall2 records (predictions res) log /\
    timing res = omap elapsed_of log.*2 /\
    final_metrics (predictions res, timing res) = Ok (metrics_of res).
Proof.
  unfold evaluate_submission. unfold mbind at 1, Run_bind at 1.
  destruct (test_prediction_eq (image_files d max_samples) w) as [-> Hw1].
  destruct (test_left predict_func (image_files d max_samples) w); [done|].
  unfold mbind at 1, Run_bind at 1.
  destruct (for_images predict_func d 0 (image_files d max_samples) ([], [])
              (after_test predict_func (image_files d max_samples) w))
    as [w2 [r|e|x]] eqn:Hloop; [|done|done].
  apply for_images_spec in Hloop
    as (log & new & Hcalls & Hpreds & Htms & Hlog & Hrec).
  cbn [fst snd app] in Hpreds, Htms.
  unfold mbind, Run_bind, run_lift, mret, Run_ret.
  destruct (final_metrics r) as [m|e] eqn:Hm; [|done].
  intros [= <- <-]. exists log. cbn [predictions timing metrics_of].
  rewrite Hcalls, Hw1, <- app_assoc. destruct r as [preds tms].
  cbn [fst snd] in *. subst. done.
Qed.

(** A run that did not return, read off where it ended: it raised while
    scoring a non-empty string that a call of the loop returned, or a call
    (the test call or one of the loop) left it by a raise outside
    [Exception]. *)
Lemma evaluate_submission_ends d max_samples w w' res :
  evaluate_submission predict_func d max_samples w = (w', res) ->
  match res with
  | Returned _ => True
  | Raised _ =>
      exists log img s elapsed later,
        calls w'
        = calls w ++ test_call predict_func (image_files d max_samples) w
          ++ log ++ [(img, Returns (VStr s) elapsed)] /\
        List.filter (readable d) (image_files d max_samples)
        = log.*1 ++ img :: later /\
        s <> EmptyString
  | Exited x =>
      exists img o, last (calls w') = Some (img, o) /\ test_exits o = Some x
  end.
Proof.
  unfold evaluate_submission. unfold mbind at 1, Run_bind at 1.
  destruct (test_prediction_eq (image_files d max_samples) w) as [-> Hw1].
  destruct (test_left predict_func (image_files d max_samples) w) as [x0|] eqn:Hleft.
  { intros [= <- <-]. rewrite Hw1. unfold test_left, test_call in *.
    destruct (image_files d max_samples) as [|first rest]; [done|].
    eexists _, _. by rewrite last_snoc. }
  unfold mbind at 1, Run_bind at 1.
  destruct (for_images predict_func d 0 (image_files d max_samples) ([], [])
              (after_test predict_func (image_files d max_samples) w))
    as [w2 [r|e|x]] eqn:Hloop.
  - unfold mbind, Run_bind, run_lift, mret, Run_ret.
    destruct (final_metrics_total r) as [m ->]. by intros [= <- <-].
  - intros [= <- <-]. apply for_images_ends in Hloop
      as (log & img & o & later & Hcalls & Hf & _ & Hfail & Hx).
    destruct (valid_call o Hfail Hx) as (s & elapsed & -> & Hs).
    exists log, img, s, elapsed, later. rewrite Hcalls, Hw1, <- !app_assoc. done.
  - intros [= <- <-]. apply for_images_ends in Hloop
      as (log & img & o & later & Hcalls & Hf & _ & Hx).
    exists img, o. rewrite Hcalls, !app_assoc, last_snoc. split; [done|].
    revert Hx. unfold exits, test_exits.
    destruct o as [v e|msg|x']; [|done|done]. by destruct (truthy v).
Qed.

(** The index of an image only feeds the progress line. *)
Lemma evaluate_image_idx d i j img r w :
  evaluate_image predict_func d i img r w
  = evaluate_image predict_func d j img r w.
Proof.
  unfold evaluate_image. destruct (label_of d img); [done|done|].
  unfold mbind, Run_bind, run_lift. rewrite !predict_image_eq.
  destruct (predict_func (pstate w) img).1 as [v e|msg|x]; [|done|done].
  destruct (invalid v) as [[|]|e1|x]; [done| |done|done].
  destruct v; [|done|done].
  destruct (compare_positions s _); [|done].
  destruct (calculate_piece_accuracy s _); [|done].
  destruct (extract_piece_positions s); [|done].
  destruct (extract_piece_positions (strip contents)); [|done].
  by rewrite !progress_ok.
Qed.

Lemma for_images_idx d files : forall i j r w,
  for_images predict_func d i files r w = for_images predict_func d j files r w.
Proof.
  induction files as [|img rest IH]; intros i j r w; cbn; [done|].
  unfold mbind, Run_bind. rewrite (evaluate_image_idx d i j).
  destruct (evaluate_image predict_func d j img r w) as [w1 [r1|e|x]];
    [|done|done].
  apply IH.
Qed.

Lemma for_images_app d pre post : forall idx r w,
  for_images predict_func d idx (pre ++ post) r w
  = match for_images predict_func d idx pre r w with
    | (w1, Returned r1) => for_images predict_func d idx post r1 w1
    | (w1, Raised e) => (w1, Raised e)
    | (w1, Exited x) => (w1, Exited x)
    end.
Proof.
  induction pre as [|img pre IH]; intros idx r w; cbn; [done|].
  unfold mbind, Run_bind.
  destruct (evaluate_image predict_func d idx img r w) as [w1 [r1|e|x]];
    [|done|done].
  rewrite IH.
  destruct (for_images predict_func d (S idx) pre r1 w1) as [w2 [r2|e|x]];
    [apply for_images_idx|done|done].
Qed.

(** An image without a readable label is passed over. *)
Lemma evaluate_image_unreadable d idx img r w :
  readable d img = false ->
  evaluate_image predict_func d idx img r w = (w, Returned r).
Proof.
  unfold readable, evaluate_image. by destruct (label_of d img).
Qed.

End RunFacts.

(** ** Properties of the evaluation run *)

Section RunTheorems.
Import Py Evaluate Trace.
Context {PS : Type}.
Variable predict_func : PS -> string -> outcome * PS.

Lemma test_call_names files (w : world (PS:=PS)) :
  (test_call predict_func files w).*1 = take 1 files.
Proof. by destruct files. Qed.

Lemma for_images_keeps d files idx r w w' r' :
  for_images predict_func d idx files r w = (w', Returned r') ->
  exists new, r'.1 = r.1 ++ new.
Proof.
  intros H. apply for_images_spec in H as (log & new & _ & Hnew & _). eauto.
Qed.


(** C3, as the code has it. In a run that returns, the predictor is called
    once on the first image before the loop (the test call, absent only
    when there is no image) and then once for each entry of the
    predictions, in order: one more call than evaluated samples. *)
Theorem predictor_calls_of_a_run d max_samples w w' res :
  evaluate_submission predict_func d max_samples w = (w', Returned res) ->
  (calls w').*1
  = (calls w).*1 ++ take 1 (image_files d max_samples)
    ++ map image (predictions res) /\
  length (calls w')
  = length (calls w) + length (take 1 (image_files d max_samples))
    + total_images (metrics_of res).
Proof.
  intros Hrun. apply evaluate_submission_spec in Hrun
    as (log & Hcalls & Hlog & Hrec & Htms & Hm).
  apply final_metrics_total_images in Hm. cbn [fst] in Hm.
  assert ((calls w').*1
          = (calls w).*1 ++ take 1 (image_files d max_samples)
            ++ map image (predictions res)) as Hnames.
  { rewrite Hcalls, !fmap_app, test_call_names.
    by rewrite (records_image _ _ Hrec). }
  split; [done|].
  apply (f_equal length) in Hnames.
  rewrite !length_fmap, !length_app, length_map in Hnames.
  rewrite length_fmap in Hnames. lia.
Qed.

(** The image list without [max_samples] is in sorted order; a positive
    [max_samples = n] keeps its first [min n (length)] names, and a run
    that returns has called the predictor in the loop on exactly the kept
    images with a readable label, in order, with one entry for each. *)
Lemma max_samples_selects_prefix d n :
  let all := image_files d None in
  let chosen := take (Z.to_nat n `min` length all) all in
  Sorted leb_rel all /\
  ((0 < n)%Z ->
   image_files d (Some n) = chosen /\
   forall w w' res,
     evaluate_submission predict_func d (Some n) w = (w', Returned res) ->
     map image (predictions res) = List.filter (readable d) chosen /\
     exists log,
       calls w' = calls w ++ test_call predict_func chosen w ++ log /\
       log.*1 = List.filter (readable d) chosen).
Proof.
  intros all chosen. split; [apply sorted_sorted|].
  intros Hn.
  assert (image_files d (Some n) = chosen) as Hsel.
  { unfold image_files. destruct (n =? 0)%Z eqn:H0; [lia|].
    by rewrite slice_to_pos. }
  split; [done|]. intros w w' res Hrun.
  apply evaluate_submission_spec in Hrun
    as (log & Hcalls & Hlog & Hrec & _ & _).
  rewrite Hsel in Hcalls, Hlog. split.
  - by rewrite (records_image _ _ Hrec).
  - by exists log.
Qed.

(** C7. The final metrics never raise; over no predictions and no timings
    they are all zero; a run that returns with [total_images = 0] has
    all-zero metrics; and a run over no image returns exactly that. *)
Theorem empty_run_has_zero_metrics d max_samples w :
  (forall r, exists m, final_metrics r = Ok m) /\
  final_metrics ([], []) = Ok zero_metrics /\
  (forall w' res,
     evaluate_submission predict_func d max_samples w = (w', Returned res) ->
     total_images (metrics_of res) = 0 ->
     metrics_of res = zero_metrics) /\
  (image_files d max_samples = [] ->
   evaluate_submission predict_func d max_samples w
   = (w, Returned {| predictions := []; timing := [];
                     metrics_of := zero_metrics |})).
Proof.
  split; [apply final_metrics_total|]. split; [done|]. split.
  - intros w' res Hrun Htotal.
    apply evaluate_submission_spec in Hrun
      as (log & _ & _ & Hrec & Htms & Hm).
    rewrite (final_metrics_total_images _ _ Hm) in Htotal. cbn [fst] in Htotal.
    apply length_zero_iff_nil in Htotal. rewrite Htotal in Hrec, Hm.
    inversion Hrec; subst. cbn in Htms. rewrite Htms in Hm.
    cbv [final_metrics] in Hm. cbn in Hm. by injection Hm as <-.
  - intros Hfiles. unfold evaluate_submission. rewrite Hfiles. done.
Qed.



End RunTheorems.

(** ** The job registry *)

Section RegistryFacts.
Import Py Subprocess ApiServer.

Lemma write_job_eq s id a j f :
  jobs s !! id = Some a -> heap s !! a = Some j ->
  write_job id f s
  = ({| jobs := jobs s; heap := <[a := f j]> (heap s) |}, Ok tt).
Proof.
  intros Hid Ha. unfold write_job, mbind, M_bind, lookup_job, update_at.
  by rewrite Hid, Ha.
Qed.

Lemma write_job_missing s id f :
  jobs s !! id = None -> write_job id f s = (s, Raise (KeyError id)).
Proof.
  intros Hid. unfold write_job, mbind, M_bind, lookup_job. by rewrite Hid.
Qed.

Lemma read_written s a j v :
  heap s !! a = Some j ->
  read {| jobs := jobs s; heap := <[a := v]> (heap s) |} a = Some v.
Proof.
  intros Ha. unfold read. cbn. apply list_lookup_insert_eq.
  by eapply lookup_lt_Some.
Qed.

Lemma read_other s a b v :
  b <> a -> read {| jobs := jobs s; heap := <[a := v]> (heap s) |} b = read s b.
Proof. intros Hne. unfold read. cbn. by apply list_lookup_insert_ne. Qed.

(** C1, as the code has it. The two completion writes are plain
    assignments: on a record that is in the registry, whatever its status,
    terminal or not, each succeeds, sets [status] and [completed_at] and
    its own one of [error] and [results], keeps the other one and every
    other record; there is no [AlreadyTerminal]. *)
Theorem completion_write_is_unguarded s id a j :
  jobs s !! id = Some a -> heap s !! a = Some j ->
  (forall err now,
     exists s' j',
       fail_job id err now s = (s', Ok tt) /\ read s' a = Some j' /\
       job_status j' = failed /\ error j' = Some err /\
       completed_at j' = Some now /\ results j' = results j /\
       jobs s' = jobs s /\ forall b, b <> a -> read s' b = read s b) /\
  (forall res now,
     exists s' j',
       complete_job id res now s = (s', Ok tt) /\ read s' a = Some j' /\
       job_status j' = completed /\ results j' = Some res /\
       completed_at j' = Some now /\ error j' = error j /\
       jobs s' = jobs s /\ forall b, b <> a -> read s' b = read s b).
Proof.
  intros Hid Ha. split.
  - intros err now. eexists _, (set_failed err now j).
    unfold fail_job. rewrite (write_job_eq _ _ _ _ _ Hid Ha).
    split; [done|]. split; [by eapply read_written|].
    repeat split; try done. intros b Hb. by apply read_other.
  - intros res now. eexists _, (set_completed res now j).
    unfold complete_job. rewrite (write_job_eq _ _ _ _ _ Hid Ha).
    split; [done|]. split; [by eapply read_written|].
    repeat split; try done. intros b Hb. by apply read_other.
Qed.

Lemma run_timeout p :
  (900 < seconds p)%Q -> exists msg, run p 900 = Raise (TimeoutExpired msg).
Proof.
  intros Hlt. unfold run.
  destruct (Qle_bool (seconds p) 900) eqn:Hle.
  - apply Qle_bool_iff in Hle. exfalso. by eapply Qlt_not_le.
  - by eexists.
Qed.

(** C6. A child that needs more than the 900 seconds granted to the whole
    batch makes [run_evaluation] return the timeout error, in both
    servers, with no results and no metrics, whatever the child might
    have written; and the background task of the API server then marks
    the job failed with that error and leaves its [results] as they
    were. *)
Theorem timeout_fails_the_run :
  (forall spawn submission_dir test_dataset_path quick,
     (900 < seconds (spawn (cmd "evaluate.py" submission_dir
                              test_dataset_path quick)))%Q ->
     ApiServer.run_evaluation spawn submission_dir test_dataset_path quick
     = Error "Evaluation timed out after 15 minutes" None /\
     Handler.run_evaluation spawn submission_dir test_dataset_path quick
     = Error "Evaluation timed out (>15 minutes)" None) /\
  (forall env id request s a j dataset temp_dir,
     jobs s !! id = Some a -> heap s !! a = Some j ->
     ensure_test_dataset env = Ok dataset ->
     make_tempdir env = Ok temp_dir ->
     download_submission env = Ok tt ->
     extract_submission env = Ok tt ->
     has_predict_py env = true ->
     install_requirements env = None \/ install_requirements env = Some (Ok tt) ->
     (900 < seconds (spawn env (cmd "evaluate.py" (temp_dir +:+ "/submission")
                                  dataset (quick_test request))))%Q ->
     cleanup env = Ok tt ->
     exists s' j',
       process_evaluation env id request s = (s', Ok tt) /\
       read s' a = Some j' /\ job_status j' = failed /\
       error j' = Some "Evaluation timed out after 15 minutes" /\
       results j' = results j).
Proof.
  split.
  - intros spawn submission_dir test_dataset_path quick Hslow.
    unfold ApiServer.run_evaluation, Handler.run_evaluation.
    destruct (run_timeout _ Hslow) as [msg ->]. done.
  - intros env id request s a j dataset temp_dir Hid Ha Hds Htmp Hdl Hex Hpy
      Hreq Hslow Hclean.
    assert (ApiServer.run_evaluation (spawn env) (temp_dir +:+ "/submission")
              dataset (quick_test request)
            = Error "Evaluation timed out after 15 minutes" None) as Hrun.
    { unfold ApiServer.run_evaluation.
      destruct (run_timeout _ Hslow) as [msg ->]. done. }
    eexists _, (set_failed "Evaluation timed out after 15 minutes"
                  (now_finished env) (set_processing (now_started env) j)).
    unfold process_evaluation, try_except, with_tempdir.
    unfold mbind at 1, M_bind at 1.
    rewrite (write_job_eq _ _ _ _ _ Hid Ha).
    unfold mbind at 1, M_bind at 1, lift at 1. rewrite Hds.
    unfold mbind at 1, M_bind at 1, lift at 1. rewrite Htmp.
    unfold mbind at 1, M_bind at 1, lift at 1. rewrite Hdl.
    unfold mbind at 1, M_bind at 1, lift at 1. rewrite Hex, Hpy.
    unfold mbind at 1, M_bind at 1, mret at 1, M_ret at 1.
    assert (forall st : server,
              (match install_requirements env with
               | Some r => lift r
               | None => mret tt
               end) st = (st, Ok tt)) as Hinst.
    { intros st. by destruct Hreq as [-> | ->]. }
    unfold mbind at 1, M_bind at 1. rewrite Hinst, Hrun.
    unfold fail_job.
    erewrite write_job_eq; [|done|by eapply read_written].
    rewrite Hclean. split; [done|].
    split; [|done].
    unfold read. cbn. rewrite list_insert_insert_eq.
    apply list_lookup_insert_eq. by eapply lookup_lt_Some.
Qed.

(** C8, where the code departs from it. [get_job_status] hands out a copy,
    [list_jobs] the job dicts themselves: after one submission the dict
    that [list_jobs] returned reads [queued]; once the background task has
    set the job to [processing], the very same dict, still in the caller's
    hands, reads [processing]. *)
Theorem list_jobs_returns_live_dicts :
  let s0 := ServerExamples.one_job in
  exists a s1,
    list_jobs s0 = (s0, Ok (1, [a])) /\
    job_status <$> read s0 a = Some queued /\
    write_job "job-1" (set_processing "12:00:01") s0 = (s1, Ok tt) /\
    job_status <$> read s1 a = Some processing /\
    started_at <$> read s1 a = Some (Some "12:00:01").
Proof.
  exists 0. eexists. split; [by vm_compute|]. split; [done|].
  split; [by vm_compute|]. split; by vm_compute.
Qed.

End RegistryFacts.

(** ** Claims at concrete inputs *)

Section Concrete.
Import Py Evaluate Trace PositionString Examples.

Lemma forallb_Forall {A} (f : A -> bool) l :
  forallb f l = true -> Forall (fun x => f x = true) l.
Proof.
  intros H. apply List.Forall_forall. by apply forallb_forall.
Qed.

(** C5. A well-formed piece-placement string (eight ranks, each of width
    eight) expands to exactly 64 symbols; and the position string built
    from a board of 64 symbols expands to that board again. *)
Theorem expand_sixty_four_and_round_trip :
  (forall s, well_formed s = true ->
     exists board, fen_to_board s = Ok board /\ length board = 64) /\
  (forall board, length board = 64 -> forallb is_symbol board = true ->
     fen_to_board (board_to_fen board) = Ok board).
Proof.
  split; [apply fen_to_board_well_formed|].
  intros board Hlen Hsym. apply fen_to_board_of_board; [done|].
  by apply forallb_Forall.
Qed.

Lemma expand_sixty_four_and_round_trip_witness :
  (exists board, fen_to_board start_position = Ok board /\ length board = 64) /\
  fen_to_board (board_to_fen (repeat "."%char 60 ++ ["K"; "."; "."; "k"]%char))
  = Ok (repeat "."%char 60 ++ ["K"; "."; "."; "k"]%char).
Proof.
  split.
  - apply (proj1 expand_sixty_four_and_round_trip). reflexivity.
  - apply (proj2 expand_sixty_four_and_round_trip); reflexivity.
Defined.



(** C3 as stated fails: one labelled image, one evaluated sample, two
    calls of the predictor. *)
Lemma one_sample_two_calls :
  exists w' res,
    evaluate_submission
      (scripted [Returns (VStr start_position) 0.25%float;
                 Returns (VStr start_position) 0.5%float])
      single_dir None fresh_world
    = (w', Returned res) /\
    total_images (metrics_of res) = 1 /\
    (calls w').*1 = ["a.png"; "a.png"].
Proof.
  eexists _, _. split; [by vm_compute|]. split; reflexivity.
Qed.

Lemma predictor_calls_of_a_run_witness :
  exists w' res,
    evaluate_submission (scripted []) sample_dir None fresh_world
    = (w', Returned res) /\
    length (calls w') = 0 + 1 + total_images (metrics_of res).
Proof.
  destruct (evaluate_submission (scripted []) sample_dir None fresh_world)
    as [w' [res|e|x]] eqn:Hrun;
    [|by vm_compute in Hrun|by vm_compute in Hrun].
  exists w', res. split; [done|].
  exact (proj2 (predictor_calls_of_a_run (scripted []) sample_dir None
                  fresh_world w' res Hrun)).
Defined.

(** C4, where the code departs from it. The guard [if max_samples:] is
    false for 0, so [max_samples = 0] cuts nothing: for every directory the
    image list and the whole run are those of a call without
    [max_samples]. In a directory of four images the run with
    [max_samples = 0] evaluates all four (two of them have a readable
    label and get an entry), not the first [min 0 4 = 0] of them. *)
Theorem max_samples_zero_keeps_all :
  (forall PS (predict_func : PS -> string -> outcome * PS) d w,
     image_files d (Some 0%Z) = image_files d None /\
     evaluate_submission predict_func d (Some 0%Z) w
     = evaluate_submission predict_func d None w) /\
  image_files sample_dir (Some 0%Z) = ["a.png"; "b.png"; "c.png"; "d.png"] /\
  exists w' res,
    evaluate_submission (scripted []) sample_dir (Some 0%Z) fresh_world
    = (w', Returned res) /\
    map image (predictions res) = ["a.png"; "b.png"] /\
    total_images (metrics_of res) = 2.
Proof.
  split; [done|]. split; [by vm_compute|].
  eexists _, _. split; [by vm_compute|]. split; reflexivity.
Qed.

Lemma max_samples_selects_prefix_example :
  image_files sample_dir (Some 3%Z) = ["a.png"; "b.png"; "c.png"].
Proof.
  exact (proj1 (proj2 (max_samples_selects_prefix (scripted [])
                         sample_dir 3) eq_refl)).
Qed.

Lemma empty_run_has_zero_metrics_witness :
  evaluate_submission (scripted [])
    {| glob_png := ["._a.png"]; label_of := fun _ => Missing |} None fresh_world
  = (fresh_world,
     Returned {| predictions := []; timing := []; metrics_of := zero_metrics |}).
Proof.
  exact (proj2 (proj2 (proj2 (empty_run_has_zero_metrics (scripted [])
           {| glob_png := ["._a.png"]; label_of := fun _ => Missing |}
           None fresh_world))) eq_refl).
Defined.




End Concrete.

Section ConcreteServer.
Import Py Subprocess ApiServer ServerExamples.

(** C1 as stated fails: the job is completed, a failure is written
    afterwards, and the write succeeds and replaces the status and the
    completion time. *)
Lemma second_completion_overwrites :
  exists s1 s2 res,
    complete_job "job-1" res "12:00:14" one_job = (s1, Ok tt) /\
    job_status <$> read s1 0 = Some completed /\
    fail_job "job-1" "late failure" "12:00:15" s1 = (s2, Ok tt) /\
    job_status <$> read s2 0 = Some failed /\
    completed_at <$> read s2 0 = Some (Some "12:00:15") /\
    error <$> read s2 0 = Some (Some "late failure") /\
    results <$> read s2 0 = Some (Some res).
Proof.
  eexists _, _,
    {| results_submission_id := 7; results_metrics := Trace.zero_metrics;
       results_s3_key := "results/Ada_Lovelace/1700000000/results.json";
       results_eval_time := 12.5%float |}.
  split; [by vm_compute|]. split; [by vm_compute|].
  split; [by vm_compute|]. repeat split; by vm_compute.
Qed.

Lemma completion_write_is_unguarded_witness :
  exists s' j',
    fail_job "job-1" "boom" "12:00:15" one_job = (s', Ok tt) /\
    read s' 0 = Some j' /\ job_status j' = failed.
Proof.
  destruct (proj1 (completion_write_is_unguarded one_job "job-1" 0 _
                     eq_refl eq_refl) "boom" "12:00:15")
    as (s' & j' & H1 & H2 & H3 & _).
  exists s', j'. auto.
Defined.

Lemma timeout_fails_the_run_witness :
  ApiServer.run_evaluation (fun _ => child 901) "/tmp/tmp1/submission"
    "/workspace/dataset_test" false
  = Error "Evaluation timed out after 15 minutes" None.
Proof.
  exact (proj1 (proj1 timeout_fails_the_run (fun _ => child 901)
                  "/tmp/tmp1/submission" "/workspace/dataset_test" false
                  eq_refl)).
Defined.

End ConcreteServer.

(** * Further properties of the code *)

(** ** The metric engine *)

Section MoreMetricFacts.
Import Py Evaluate PositionString Clean.

Lemma split_nil s : split s = [] <-> all_space s = true.
Proof.
  induction s as [|c s IH]; cbn [split all_space]; [done|].
  destruct (isspace c) eqn:Hc; cbn [andb]; [exact IH|].
  split; [|done]. destruct s as [|c' s']; [done|].
  destruct (isspace c'); [done|]. by destruct (split (String c' s')).
Qed.

Lemma extract_piece_positions_spec s :
  is_ok (extract_piece_positions s) = negb (contains " " s && all_space s) /\
  (contains " " s && all_space s = true ->
   extract_piece_positions s = Raise (IndexError "list index out of range")).
Proof.
  unfold extract_piece_positions.
  destruct (contains " " s); cbn [andb negb]; [|done].
  destruct (all_space s) eqn:Hs.
  - apply split_nil in Hs. rewrite Hs. done.
  - destruct (split s) as [|w ws] eqn:Hsplit; [|done].
    apply split_nil in Hsplit. congruence.
Qed.

(** [extract_piece_positions] raises exactly on a string of whitespace
    that holds a space; this is where [fen.split()[0]] finds no field. *)
Theorem extract_piece_positions_raises_iff s :
  is_ok (extract_piece_positions s) = negb (contains " " s && all_space s) /\
  (contains " " s && all_space s = true ->
   extract_piece_positions s = Raise (IndexError "list index out of range")).
Proof. exact (extract_piece_positions_spec s). Qed.

Lemma extract_piece_positions_raises_iff_witness :
  extract_piece_positions " " = Raise (IndexError "list index out of range").
Proof.
  exact (proj2 (extract_piece_positions_raises_iff " ") eq_refl).
Defined.

Lemma append_cons c s u : String c s +:+ u = String c (s +:+ u).
Proof. reflexivity. Qed.

Lemma append_nil u : EmptyString +:+ u = u.
Proof. reflexivity. Qed.

Lemma rstrip_app t : forall u,
  no_space t = true -> t <> EmptyString -> rstrip (t +:+ u) = t +:+ rstrip u.
Proof.
  induction t as [|c t IH]; intros u Hns Hne; [done|].
  cbn [no_space] in Hns. apply andb_prop in Hns as [Hc Ht].
  apply negb_true_iff in Hc. rewrite append_cons. cbn [rstrip].
  destruct t as [|c' t'].
  - rewrite append_nil. destruct (rstrip u); [by rewrite Hc|done].
  - rewrite IH by done. by rewrite append_cons.
Qed.

Lemma lstrip_no_space t u :
  no_space t = true -> t <> EmptyString -> lstrip (t +:+ u) = t +:+ u.
Proof.
  destruct t as [|c t]; [done|]. cbn [no_space]. intros Hns _.
  apply andb_prop in Hns as [Hc _]. apply negb_true_iff in Hc.
  rewrite append_cons. cbn [lstrip]. by rewrite Hc.
Qed.

Lemma split_first_word t : forall c u,
  no_space t = true -> t <> EmptyString -> isspace c = true ->
  split (t +:+ String c u) = t :: split u.
Proof.
  induction t as [|d t IH]; intros c u Hns Hne Hc; [done|].
  cbn [no_space] in Hns. apply andb_prop in Hns as [Hd Ht].
  apply negb_true_iff in Hd. rewrite append_cons. cbn [split]. rewrite Hd.
  destruct t as [|d' t'].
  - rewrite append_nil. rewrite Hc. cbn [split]. by rewrite Hc.
  - assert (no_space (String d' t') = true) as Hns' by done.
    cbn [no_space] in Ht.
    apply andb_prop in Ht as [Hd' Ht']. apply negb_true_iff in Hd'.
    specialize (IH c u Hns' ltac:(done) Hc).
    rewrite append_cons in *. rewrite Hd'. by rewrite IH.
Qed.

Lemma no_space_contains t : no_space t = true -> contains " " t = false.
Proof.
  induction t as [|c t IH]; [done|]. cbn [no_space contains].
  intros [Hc Ht]%andb_prop. rewrite (IH Ht), orb_false_r.
  destruct (Ascii.eqb c " ") eqn:Heq; [|done].
  apply Ascii.eqb_eq in Heq as ->. done.
Qed.

Lemma append_empty_r t : t +:+ EmptyString = t.
Proof.
  induction t as [|c t IH]; [done|]. by rewrite append_cons, IH.
Qed.

(** The field a board descriptor starts with: for a piece-placement field
    [t] followed by a space and anything, [strip] and
    [extract_piece_positions] give back [t]. *)
Lemma extract_first_field t rest :
  no_space t = true -> t <> EmptyString ->
  extract_piece_positions (strip (t +:+ String " " rest)) = Ok t /\
  extract_piece_positions (strip t) = Ok t.
Proof.
  intros Hns Hne. unfold strip. split.
  - rewrite lstrip_no_space, rstrip_app by done.
    cbn [rstrip]. destruct (rstrip rest) as [|r rs] eqn:Hr.
    + rewrite append_empty_r. unfold extract_piece_positions.
      by rewrite no_space_contains.
    + unfold extract_piece_positions.
      rewrite split_first_word by done.
      rewrite contains_app. cbn [contains].
      by rewrite Ascii.eqb_refl, orb_true_r.
  - rewrite <- (append_empty_r t) at 1.
    rewrite lstrip_no_space, rstrip_app by done. cbn [rstrip].
    rewrite append_empty_r. unfold extract_piece_positions.
    by rewrite no_space_contains.
Qed.

(** [compare_positions] never raises, whatever the two strings; it is
    symmetric, and every string matches itself. *)
Theorem compare_positions_total_symmetric p g :
  exists b,
    compare_positions p g = Ok b /\ compare_positions g p = Ok b /\
    compare_positions p p = Ok true.
Proof.
  unfold compare_positions.
  destruct (extract_strip_ok p) as [p' ->], (extract_strip_ok g) as [g' ->].
  cbn. exists (bool_decide (p' = g')). split; [done|]. split.
  - f_equal. apply bool_decide_ext. naive_solver.
  - by rewrite bool_decide_eq_true_2.
Qed.

(** A full board descriptor and its own piece-placement field match: the
    fields after the first space are ignored, on either side. *)
Theorem compare_positions_ignores_other_fields t rest rest' :
  no_space t = true -> t <> EmptyString ->
  compare_positions (t +:+ String " " rest) t = Ok true /\
  compare_positions t (t +:+ String " " rest) = Ok true /\
  compare_positions (t +:+ String " " rest) (t +:+ String " " rest') = Ok true.
Proof.
  intros Hns Hne. unfold compare_positions.
  destruct (extract_first_field t rest Hns Hne) as [-> ->].
  destruct (extract_first_field t rest' Hns Hne) as [-> _].
  cbn. by rewrite bool_decide_eq_true_2.
Qed.

Lemma compare_positions_ignores_other_fields_witness :
  compare_positions ("8/8/8/8/8/8/8/8" +:+ String " " "w - - 0 1")
    "8/8/8/8/8/8/8/8" = Ok true.
Proof.
  exact (proj1 (compare_positions_ignores_other_fields "8/8/8/8/8/8/8/8"
                  "w - - 0 1" "" eq_refl ltac:(discriminate))).
Defined.

End MoreMetricFacts.

(** ** Expanding a position string without validation *)

Section ExpandFacts.
Import Py Evaluate PositionString Clean.

Lemma not_superscript c :
  superscript c = false ->
  is_ascii_digit c = true \/ isdigit c = false.
Proof.
  unfold superscript. destruct (is_ascii_digit c); [by left|].
  rewrite andb_true_r. by right.
Qed.

Lemma fen_char_superscript board c :
  superscript c = true -> exists msg, fen_char board c = Raise (ValueError msg).
Proof.
  unfold superscript. intros [Hd Hn]%andb_prop. apply negb_true_iff in Hn.
  unfold fen_char, int_of_char. rewrite Hd, Hn. by eexists.
Qed.

Lemma fen_rank_cells rank : forall board,
  no_superscript rank = true ->
  exists cells,
    fen_rank rank board = Ok (board ++ cells) /\
    length cells = cells_of_rank rank.
Proof.
  induction rank as [|c rest IH]; intros board Hns.
  - exists []. by rewrite app_nil_r.
  - cbn [no_superscript] in Hns. apply andb_prop in Hns as [Hc Hrest].
    apply negb_true_iff in Hc. cbn [fen_rank cells_of_rank].
    destruct (not_superscript c Hc) as [Hd|Hd].
    + rewrite (fen_char_digit _ _ Hd), Hd. cbn.
      destruct (IH (board ++ repeat "."%char (code c - 48)) Hrest)
        as (cells & -> & Hlen).
      exists (repeat "."%char (code c - 48) ++ cells).
      rewrite app_assoc, length_app, repeat_length. by rewrite Hlen.
    + rewrite (fen_char_symbol _ _ Hd). cbn.
      assert (is_ascii_digit c = false) as ->.
      { destruct (is_ascii_digit c) eqn:H; [|done].
        apply is_ascii_digit_isdigit in H. congruence. }
      destruct (IH (board ++ [c]) Hrest) as (cells & -> & Hlen).
      exists (c :: cells). rewrite <- app_assoc. cbn. by rewrite Hlen.
Qed.

Lemma fen_rank_raises rank : forall board,
  no_superscript rank = false ->
  exists msg, fen_rank rank board = Raise (ValueError msg).
Proof.
  induction rank as [|c rest IH]; intros board Hns; [done|].
  cbn [no_superscript] in Hns. cbn [fen_rank].
  destruct (superscript c) eqn:Hc.
  - destruct (fen_char_superscript board c Hc) as [msg ->]. by exists msg.
  - cbn in Hns.
    destruct (not_superscript c Hc) as [Hd|Hd].
    + rewrite (fen_char_digit _ _ Hd). cbn. by apply IH.
    + rewrite (fen_char_symbol _ _ Hd). cbn. by apply IH.
Qed.

Lemma no_superscript_split s :
  no_superscript s = forallb no_superscript (split_on "/" s).
Proof.
  induction s as [|c s IH]; [done|]. cbn [no_superscript split_on].
  destruct (Ascii.eqb c "/") eqn:Hc.
  - apply Ascii.eqb_eq in Hc as ->. cbn [forallb no_superscript].
    by rewrite <- IH.
  - rewrite IH. destruct (split_on "/" s) as [|w ws]; cbn; [by rewrite !andb_true_r|].
    by rewrite andb_assoc.
Qed.

Lemma fen_ranks_cells ranks : forall board,
  forallb no_superscript ranks = true ->
  exists cells,
    fen_ranks ranks board = Ok (board ++ cells) /\
    length cells = sum_list (cells_of_rank <$> ranks).
Proof.
  induction ranks as [|r rest IH]; intros board Hall.
  - exists []. by rewrite app_nil_r.
  - cbn [forallb] in Hall. apply andb_prop in Hall as [Hr Hrest].
    cbn [fen_ranks]. destruct (fen_rank_cells r board Hr) as (cells & -> & Hlen).
    cbn. destruct (IH (board ++ cells) Hrest) as (cells' & -> & Hlen').
    exists (cells ++ cells'). rewrite app_assoc, length_app. by rewrite Hlen, Hlen'.
Qed.

Lemma fen_ranks_raises ranks : forall board,
  forallb no_superscript ranks = false ->
  exists msg, fen_ranks ranks board = Raise (ValueError msg).
Proof.
  induction ranks as [|r rest IH]; intros board Hall; [done|].
  cbn [forallb] in Hall. cbn [fen_ranks].
  destruct (no_superscript r) eqn:Hr.
  - destruct (fen_rank_cells r board Hr) as (cells & -> & _). cbn.
    by apply IH.
  - destruct (fen_rank_raises r board Hr) as [msg ->]. by exists msg.
Qed.

Lemma fen_to_board_spec s :
  is_ok (fen_to_board s) = no_superscript s /\
  (forall board, fen_to_board s = Ok board ->
     length board = sum_list (cells_of_rank <$> split_on "/" s)) /\
  (forall e, fen_to_board s = Raise e -> exists msg, e = ValueError msg).
Proof.
  unfold fen_to_board. rewrite no_superscript_split.
  destruct (forallb no_superscript (split_on "/" s)) eqn:Hall.
  - destruct (fen_ranks_cells _ [] Hall) as (cells & -> & Hlen).
    split; [done|]. split; [|done]. by intros board [= <-].
  - destruct (fen_ranks_raises _ [] Hall) as [msg ->].
    split; [done|]. split; [done|]. intros e [= <-]. by exists msg.
Qed.

(** [fen_to_board] checks nothing: it returns on every string, well formed
    or not, with as many squares as the digits and symbols of the string
    add up to; the one exception is a string holding one of the
    superscript digits, for which [int] raises [ValueError]. *)
Theorem fen_to_board_returns_iff s :
  is_ok (fen_to_board s) = no_superscript s /\
  (forall board, fen_to_board s = Ok board ->
     length board = sum_list (cells_of_rank <$> split_on "/" s)) /\
  (forall e, fen_to_board s = Raise e -> exists msg, e = ValueError msg).
Proof. exact (fen_to_board_spec s). Qed.

Lemma matches_refl b : matches b b = length b.
Proof.
  induction b as [|c b IH]; [done|]. cbn. by rewrite Ascii.eqb_refl, IH.
Qed.

Lemma matches_le p : forall g, matches p g <= length p `min` length g.
Proof.
  induction p as [|c p IH]; intros [|d g]; cbn; try lia.
  specialize (IH g). destruct (Ascii.eqb c d); lia.
Qed.

(** A board descriptor scored against itself: the score is the number of
    squares of its board over 64, which is 1.0 when its piece-placement
    field is well formed and more than 1.0 when the field is too long. *)
Theorem piece_accuracy_against_itself s t board :
  extract_piece_positions (strip s) = Ok t ->
  fen_to_board t = Ok board ->
  calculate_piece_accuracy s s
  = Ok (PrimFloat.div (float_of_nat (length board)) 64%float) /\
  (well_formed t = true -> calculate_piece_accuracy s s = Ok 1%float).
Proof.
  intros Ht Hb. unfold calculate_piece_accuracy. rewrite Ht. cbn.
  rewrite Hb. cbn. rewrite matches_refl. split; [done|].
  intros Hwf. destruct (fen_to_board_well_formed t Hwf) as (b' & Hb' & Hlen).
  rewrite Hb in Hb'. injection Hb' as <-. by rewrite Hlen.
Qed.

Lemma piece_accuracy_against_itself_witness :
  calculate_piece_accuracy "9/9/9/9/9/9/9/9" "9/9/9/9/9/9/9/9"
  = Ok 1.125%float.
Proof.
  exact (proj1 (piece_accuracy_against_itself "9/9/9/9/9/9/9/9"
                  "9/9/9/9/9/9/9/9" (repeat "."%char 72) eq_refl eq_refl)).
Defined.

(** The score counts matching squares position by position up to the
    shorter board: it is [k / 64] with [k] at most the number of squares
    of either board, so at most 64/64 against a well-formed truth. *)
Theorem piece_accuracy_counts_matches predicted truth x :
  calculate_piece_accuracy predicted truth = Ok x ->
  exists tp tg pb gb,
    extract_piece_positions (strip predicted) = Ok tp /\
    extract_piece_positions (strip truth) = Ok tg /\
    fen_to_board tp = Ok pb /\ fen_to_board tg = Ok gb /\
    x = PrimFloat.div (float_of_nat (matches pb gb)) 64%float /\
    matches pb gb <= length pb `min` length gb /\
    (well_formed tg = true -> matches pb gb <= 64).
Proof.
  unfold calculate_piece_accuracy.
  destruct (extract_strip_ok predicted) as [tp ->].
  destruct (extract_strip_ok truth) as [tg ->]. cbn.
  destruct (fen_to_board tp) as [pb|e] eqn:Hpb; [|done]. cbn.
  destruct (fen_to_board tg) as [gb|e] eqn:Hgb; [|done]. cbn.
  intros [= <-]. exists tp, tg, pb, gb.
  pose proof (matches_le pb gb) as Hle.
  repeat split; try done.
  intros Hwf. destruct (fen_to_board_well_formed tg Hwf) as (b' & Hb' & Hlen).
  rewrite Hgb in Hb'. injection Hb' as <-. lia.
Qed.

Lemma piece_accuracy_counts_matches_witness :
  exists k, k <= 64 /\
    calculate_piece_accuracy "8/8/8/8/8/8/8/7K" "8/8/8/8/8/8/8/8"
    = Ok (PrimFloat.div (float_of_nat k) 64%float).
Proof.
  destruct (piece_accuracy_counts_matches "8/8/8/8/8/8/8/7K" "8/8/8/8/8/8/8/8"
              _ eq_refl)
    as (tp & tg & pb & gb & Htp & Htg & Hpb & Hgb & Hx & _ & Hle).
  exists (matches pb gb). split.
  - apply Hle. injection Htg as <-. reflexivity.
  - rewrite <- Hx. reflexivity.
Defined.

End ExpandFacts.

(** ** More on the evaluation run *)

Section MoreRunFacts.
Import Py Evaluate Trace Clean.
Context {PS : Type}.
Variable predict_func : PS -> string -> outcome * PS.

Lemma lstrip_all_space s : all_space s = true -> lstrip s = EmptyString.
Proof.
  induction s as [|c s IH]; [done|]. cbn [all_space lstrip].
  intros [-> Hs]%andb_prop. by apply IH.
Qed.

Lemma extract_blank s :
  contains " " s && all_space s = true ->
  extract_piece_positions s = Raise (IndexError "list index out of range") /\
  s <> EmptyString /\ strip s = EmptyString.
Proof.
  intros H. split; [by apply extract_piece_positions_spec|].
  apply andb_prop in H as [Hc Hs]. split; [by destruct s|].
  unfold strip. by rewrite lstrip_all_space.
Qed.

(** What the loop body does with a non-empty string: it scores it, and an
    exception of the scoring leaves the body as it is. *)
Lemma evaluate_image_valid d idx img r w contents s elapsed :
  label_of d img = Text contents ->
  (predict_func (pstate w) img).1 = Returns (VStr s) elapsed ->
  s <> EmptyString ->
  evaluate_image predict_func d idx img r w
  = run_lift
      (is_correct ← compare_positions s (strip contents);
       piece_acc ← calculate_piece_accuracy s (strip contents);
       shown_pred ← extract_piece_positions s;
       shown_gt ← extract_piece_positions (strip contents);
       mret (r.1 ++ [{| image := img; error := None;
                        predicted := Some shown_pred;
                        ground_truth := Some shown_gt;
                        correct := is_correct;
                        piece_accuracy := piece_acc;
                        time_seconds := elapsed |}],
             r.2 ++ [elapsed]))
      (after_call predict_func img w).
Proof.
  intros Hlabel Hcall Hs. unfold evaluate_image. rewrite Hlabel.
  unfold mbind at 1, Run_bind at 1. rewrite predict_image_eq, Hcall.
  assert (invalid (VStr s) = Returned false) as ->.
  { unfold invalid. cbn. destruct s; [done|]. done. }
  unfold mbind, Run_bind, run_lift, result_bind.
  destruct (compare_positions s (strip contents)); [|done].
  destruct (calculate_piece_accuracy s (strip contents)); [|done].
  destruct (extract_piece_positions s); [|done].
  destruct (extract_piece_positions (strip contents)); [|done].
  by rewrite progress_ok.
Qed.

(** A prediction that is only whitespace and holds a space is a non-empty
    string, so it passes the validity test; scoring it raises outside any
    [try], and the exception ends the loop and the whole run: no results
    are returned, the entries gathered so far included. *)
Theorem blank_prediction_aborts_the_run d max_samples w pre img post w0 w1 r1
    contents s elapsed :
  image_files d max_samples = pre ++ img :: post ->
  test_prediction predict_func (pre ++ img :: post) w = (w0, Returned tt) ->
  for_images predict_func d 0 pre ([], []) w0 = (w1, Returned r1) ->
  label_of d img = Text contents ->
  (predict_func (pstate w1) img).1 = Returns (VStr s) elapsed ->
  contains " " s && all_space s = true ->
  exists e,
    evaluate_submission predict_func d max_samples w
    = (after_call predict_func img w1, Raised e) /\
    (e = IndexError "list index out of range" \/ exists msg, e = ValueError msg).
Proof.
  intros Hfiles Htest Hpre Hlabel Hcall Hblank.
  destruct (extract_blank s Hblank) as (Hraise & Hne & Hstrip).
  pose proof (evaluate_image_valid d (length pre) img r1 w1 contents s
                elapsed Hlabel Hcall Hne) as Hstep.
  destruct (compare_positions_ok s (strip contents)) as [b Hb].
  rewrite Hb, Hraise in Hstep. cbn in Hstep.
  match type of Hstep with
  | _ = run_lift ?X _ =>
      assert (exists e,
                X = Raise e /\
                (e = IndexError "list index out of range" \/
                 exists msg, e = ValueError msg)) as (e & He & Hkind)
  end.
  { unfold calculate_piece_accuracy. rewrite Hstrip.
    destruct (extract_strip_ok (strip contents)) as [tg ->]. cbn.
    destruct (fen_to_board tg) as [gb|e] eqn:Hgb; cbn.
    - eexists. split; [done|]. by left.
    - exists e. split; [done|]. right.
      by apply (proj2 (proj2 (fen_to_board_spec tg))). }
  exists e. split; [|done].
  unfold evaluate_submission. rewrite Hfiles.
  unfold mbind at 1, Run_bind at 1. rewrite Htest.
  unfold mbind at 1, Run_bind at 1. rewrite for_images_app, Hpre.
  cbn [for_images]. unfold mbind at 1, Run_bind at 1.
  rewrite (evaluate_image_idx predict_func d 0 (length pre)).
  rewrite Hstep.
  by rewrite He.
Qed.

Lemma final_metrics_correct r m :
  final_metrics r = Ok m ->
  correct_predictions m = length (List.filter correct r.1).
Proof.
  destruct r as [preds tms]. unfold final_metrics. cbn [fst snd].
  destruct preds as [|p preds]; destruct tms as [|t tms];
    intros H; cbn in H; injection H as <-; reflexivity.
Qed.

Lemma length_omap_le {A B} (f : A -> option B) l :
  length (omap f l) <= length l.
Proof.
  induction l as [|x l IH]; cbn; [done|]. destruct (f x); cbn; lia.
Qed.

(** The result of a run that returns: the entries follow the sorted image
    list, one per image with a readable label and in that order; the
    timing list is never longer than the predictions; the counts of the
    metrics are the lengths they stand for. *)
Theorem results_follow_the_image_list d max_samples w w' res :
  evaluate_submission predict_func d max_samples w = (w', Returned res) ->
  map image (predictions res)
  = List.filter (readable d) (image_files d max_samples) /\
  length (timing res) <= length (predictions res) /\
  total_images (metrics_of res) = length (predictions res) /\
  correct_predictions (metrics_of res)
  = length (List.filter correct (predictions res)) /\
  correct_predictions (metrics_of res) <= total_images (metrics_of res) /\
  total_images (metrics_of res) <= length (image_files d max_samples).
Proof.
  intros Hrun. apply evaluate_submission_spec in Hrun
    as (log & _ & Hlog & Hrec & Htms & Hm).
  pose proof (records_image _ _ Hrec) as Himg. rewrite Hlog in Himg.
  pose proof (final_metrics_total_images _ _ Hm) as Htotal.
  pose proof (final_metrics_correct _ _ Hm) as Hcorrect.
  cbn [fst] in Htotal, Hcorrect.
  split; [done|]. split.
  { rewrite Htms, (Forall2_length _ _ _ Hrec).
    etrans; [apply length_omap_le|]. by rewrite length_fmap. }
  split; [done|]. split; [done|]. split.
  - rewrite Hcorrect, Htotal. apply List.filter_length_le.
  - rewrite Htotal, <- (length_map image), Himg. apply List.filter_length_le.
Qed.

End MoreRunFacts.

Section ListingFacts.
Import Py Evaluate Trace.

(** The image list without [max_samples]: in code-point order, holding
    exactly the names of [images/*.png] that do not start with ["._"], each
    as often as the directory lists it; and a negative [max_samples], which
    the guard lets through, drops that many names from the end. *)
Theorem image_files_listing d :
  let all := image_files d None in
  Sorted leb_rel all /\
  Permutation all
    (List.filter (fun name => negb (startswith "._" name)) (glob_png d)) /\
  (forall name,
     In name all <-> In name (glob_png d) /\ startswith "._" name = false) /\
  (forall n, (n < 0)%Z ->
     image_files d (Some n) = take (length all - Z.to_nat (- n)) all).
Proof.
  intros all. unfold all, image_files.
  destruct (sorted_sorted
              (List.filter (fun name => negb (startswith "._" name)) (glob_png d)))
    as [Hsorted Hperm].
  split; [done|]. split; [done|]. split.
  - intros name. split.
    + intros Hin. eapply Permutation_in in Hin; [|exact Hperm].
      apply filter_In in Hin as [Hin Hname]. by apply negb_true_iff in Hname.
    + intros [Hin Hname]. eapply Permutation_in; [symmetry; exact Hperm|].
      apply filter_In. by rewrite Hname.
  - intros n Hn. destruct (n =? 0)%Z eqn:H0; [lia|].
    unfold slice_to. destruct (0 <=? n)%Z eqn:Hle; [lia|done].
Qed.

Lemma image_files_listing_witness :
  image_files Examples.sample_dir (Some (-1)%Z) = ["a.png"; "b.png"; "c.png"].
Proof.
  exact (proj2 (proj2 (proj2 (image_files_listing Examples.sample_dir)))
           (-1)%Z eq_refl).
Defined.

End ListingFacts.

(** ** When the run returns *)

Section ReturnFacts.
Import Py Evaluate Trace Clean.
Context {PS : Type}.
Variable predict_func : PS -> string -> outcome * PS.

Lemma no_superscript_lstrip s :
  no_superscript s = true -> no_superscript (lstrip s) = true.
Proof.
  induction s as [|c s IH]; [done|]. cbn [lstrip].
  destruct (isspace c); [|done]. cbn [no_superscript].
  intros [_ Hs]%andb_prop. by apply IH.
Qed.

Lemma no_superscript_rstrip s :
  no_superscript s = true -> no_superscript (rstrip s) = true.
Proof.
  induction s as [|c s IH]; [done|]. cbn [no_superscript rstrip].
  intros [Hc Hs]%andb_prop. specialize (IH Hs).
  destruct (rstrip s) as [|c' r].
  - destruct (isspace c); [done|]. cbn. by rewrite Hc.
  - cbn [no_superscript] in *. by rewrite Hc, IH.
Qed.

Lemma no_superscript_words s :
  no_superscript s = true -> forallb no_superscript (split s) = true.
Proof.
  induction s as [|c s IH]; [done|]. cbn [no_superscript split].
  intros [Hc Hs]%andb_prop. specialize (IH Hs).
  destruct (isspace c); [done|].
  destruct s as [|c' s']; [cbn; by rewrite Hc|].
  destruct (isspace c').
  - cbn [forallb no_superscript]. by rewrite Hc, IH.
  - destruct (split (String c' s')) as [|w' ws]; [cbn; by rewrite Hc|].
    cbn [forallb no_superscript] in *. apply andb_prop in IH as [Hw Hws].
    by rewrite Hc, Hw, Hws.
Qed.

Lemma no_superscript_field s t :
  no_superscript s = true ->
  extract_piece_positions (strip s) = Ok t -> no_superscript t = true.
Proof.
  intros Hs. assert (no_superscript (strip s) = true) as Hstrip.
  { unfold strip. by apply no_superscript_rstrip, no_superscript_lstrip. }
  unfold extract_piece_positions.
  destruct (contains " " (strip s)); [|by intros [= <-]].
  pose proof (no_superscript_words _ Hstrip) as Hwords.
  destruct (split (strip s)) as [|w ws]; [done|].
  cbn in *. intros [= <-]. by apply andb_prop in Hwords as [? _].
Qed.

(** The score of two strings without superscript digits is defined. *)
Lemma calculate_piece_accuracy_ok p g :
  no_superscript p = true -> no_superscript g = true ->
  exists x, calculate_piece_accuracy p g = Ok x.
Proof.
  intros Hp Hg. unfold calculate_piece_accuracy.
  destruct (extract_strip_ok p) as [tp Htp], (extract_strip_ok g) as [tg Htg].
  rewrite Htp, Htg. cbn.
  pose proof (proj1 (fen_to_board_spec tp)) as Hokp.
  pose proof (proj1 (fen_to_board_spec tg)) as Hokg.
  rewrite (no_superscript_field p tp Hp Htp) in Hokp.
  rewrite (no_superscript_field g tg Hg Htg) in Hokg.
  destruct (fen_to_board tp); [|done]. destruct (fen_to_board tg); [|done].
  cbn. by eexists.
Qed.

(** A raise outside [Exception] that leaves the loop would leave the test
    block as well. *)
Lemma exits_test o x : exits o = Some x -> test_exits o = Some x.
Proof.
  unfold exits, test_exits. destruct o as [v e|msg|x']; [|done|done].
  by destruct (truthy v).
Qed.

Section Scorable.
Variable d : dataset.
Hypothesis raises_exceptions_only :
  forall st img, test_exits (predict_func st img).1 = None.
Hypothesis predictions_scorable :
  forall st img s elapsed,
    (predict_func st img).1 = Returns (VStr s) elapsed -> scorable s = true.
Hypothesis labels_clean :
  forall img contents,
    label_of d img = Text contents -> no_superscript contents = true.

Lemma evaluate_image_returns idx img r w :
  exists w' r', evaluate_image predict_func d idx img r w = (w', Returned r').
Proof.
  destruct (evaluate_image predict_func d idx img r w) as [w' [r'|e|x]] eqn:Hstep;
    [by eauto|exfalso|exfalso].
  - pose proof Hstep as Hspec. apply evaluate_image_spec in Hspec.
    unfold readable in Hspec.
    destruct (label_of d img) as [| |contents] eqn:Hlabel;
      [by destruct Hspec|by destruct Hspec|].
    destruct Hspec as (_ & Hfail & Hx).
    destruct (valid_call _ Hfail Hx) as (s & elapsed & Hcall & Hs).
    rewrite (evaluate_image_valid predict_func d idx img r w contents s
               elapsed Hlabel Hcall Hs) in Hstep.
    pose proof (predictions_scorable _ _ _ _ Hcall) as Hscore.
    unfold scorable in Hscore. apply andb_prop in Hscore as [Hclean Hblank].
    destruct (compare_positions_ok s (strip contents)) as [b Hb].
    destruct (calculate_piece_accuracy_ok s (strip contents) Hclean) as [y Hy].
    { unfold strip. apply no_superscript_rstrip, no_superscript_lstrip.
      by eapply labels_clean. }
    destruct (extract_strip_ok contents) as [tg Htg].
    pose proof (proj1 (extract_piece_positions_spec s)) as Hok.
    rewrite Hblank in Hok.
    destruct (extract_piece_positions s) as [tp|e']; [|done].
    rewrite Hb, Hy, Htg in Hstep. cbn in Hstep. done.
  - apply evaluate_image_spec in Hstep. unfold readable in Hstep.
    destruct (label_of d img); [by destruct Hstep|by destruct Hstep|].
    destruct Hstep as [_ Hx]. apply exits_test in Hx.
    by rewrite raises_exceptions_only in Hx.
Qed.

Lemma for_images_returns files : forall idx r w,
  exists w' r', for_images predict_func d idx files r w = (w', Returned r').
Proof.
  induction files as [|img rest IH]; intros idx r w; cbn [for_images].
  - by exists w, r.
  - unfold mbind, Run_bind.
    destruct (evaluate_image_returns idx img r w) as (w1 & r1 & ->).
    apply IH.
Qed.


End Scorable.

End ReturnFacts.

(** ** More on the job registry *)

Section MoreRegistryFacts.
Import Py Subprocess ApiServer Registry.

Lemma write_job_update s id a f :
  jobs s !! id = Some a -> is_Some (heap s !! a) ->
  write_job id f s = (update a f s, Ok tt).
Proof.
  intros Hid [j Ha]. rewrite (write_job_eq _ _ _ _ _ Hid Ha).
  unfold update. do 2 f_equal. apply list_eq. intros k.
  rewrite list_lookup_alter. destruct (decide (a = k)) as [<-|Hne].
  - rewrite Ha. apply list_lookup_insert_eq. by eapply lookup_lt_Some.
  - by apply list_lookup_insert_ne.
Qed.

Lemma read_update a f s : read (update a f s) a = f <$> read s a.
Proof. unfold read, update. cbn. apply list_lookup_alter_eq. Qed.

Lemma read_update_ne a b f s : a <> b -> read (update a f s) b = read s b.
Proof. intros. unfold read, update. cbn. by apply list_lookup_alter_ne. Qed.

(** An id the registry does not hold: the status and the deletion answer
    404 and change nothing, a completion write raises [KeyError], and a
    background task for it (its job was deleted before it started) raises
    the [KeyError] of its own handler and changes nothing either. *)
Theorem unknown_job_is_not_found s id :
  jobs s !! id = None ->
  get_job_status id s = (s, Raise (HTTPException 404 "Job not found")) /\
  delete_job id s = (s, Raise (HTTPException 404 "Job not found")) /\
  (forall f, write_job id f s = (s, Raise (KeyError id))) /\
  (forall env request,
     process_evaluation env id request s = (s, Raise (KeyError id))).
Proof.
  intros Hid. unfold get_job_status, delete_job. rewrite Hid.
  split; [done|]. split; [done|]. split; [intros; by apply write_job_missing|].
  intros env request. unfold process_evaluation, try_except, fail_job.
  unfold mbind at 1, M_bind at 1. by rewrite !write_job_missing.
Qed.

Lemma unknown_job_is_not_found_witness :
  get_job_status "job-2" ServerExamples.one_job
  = (ServerExamples.one_job, Raise (HTTPException 404 "Job not found")).
Proof.
  exact (proj1 (unknown_job_is_not_found ServerExamples.one_job "job-2" eq_refl)).
Defined.

(** A submission and the status request after it: the job is put on the
    heap at a new address with status [queued] and nothing else set, the
    other ids keep their dicts, and the status request returns a copy at
    yet another address that reads the same. *)
Theorem submitted_job_reads_queued s id request now :
  let a := length (heap s) in
  let j := {| job_id := id; job_status := queued;
              submission_id := request_submission_id request;
              full_name := request_full_name request;
              created_at := now; started_at := None; completed_at := None;
              results := None; error := None |} in
  exists s1 s2,
    submit_evaluation id request now s = (s1, Ok id) /\
    jobs s1 = <[id := a]> (jobs s) /\ read s1 a = Some j /\
    (forall b, b < a -> read s1 b = read s b) /\
    get_job_status id s1 = (s2, Ok (S a)) /\
    read s2 (S a) = Some j /\ read s2 a = Some j /\ jobs s2 = jobs s1.
Proof.
  intros a j.
  exists {| jobs := <[id := a]> (jobs s); heap := heap s ++ [j] |},
         {| jobs := <[id := a]> (jobs s); heap := (heap s ++ [j]) ++ [j] |}.
  assert ((heap s ++ [j]) !! a = Some j) as Ha.
  { subst a. by rewrite lookup_app_r, Nat.sub_diag. }
  split; [done|]. split; [done|]. split; [done|]. split.
  { intros b Hb. unfold read. cbn. by rewrite lookup_app_l. }
  split.
  { unfold get_job_status, alloc. cbn [jobs heap].
    rewrite lookup_insert_eq, Ha. rewrite length_app, Nat.add_1_r. done. }
  unfold read. cbn [heap jobs]. split; [|split; [|done]].
  - rewrite lookup_app_r; rewrite length_app; cbn; [|lia].
    by replace (S a - (length (heap s) + 1)) with 0 by (subst a; lia).
  - rewrite lookup_app_l; [done|]. rewrite length_app. cbn. lia.
Qed.

(** Deletion: the id is gone, a status request for it answers 404, the
    other ids and every dict on the heap stay, so a dict a caller holds
    stays readable. *)
Theorem deleted_job_is_gone s id a :
  jobs s !! id = Some a ->
  exists s1,
    delete_job id s = (s1, Ok tt) /\
    jobs s1 = delete id (jobs s) /\ heap s1 = heap s /\
    get_job_status id s1 = (s1, Raise (HTTPException 404 "Job not found")) /\
    (forall id', id' <> id -> jobs s1 !! id' = jobs s !! id').
Proof.
  intros Hid. eexists. unfold delete_job. rewrite Hid.
  split; [done|]. split; [done|]. split; [done|]. split.
  - unfold get_job_status. cbn [jobs]. by rewrite lookup_delete_eq.
  - intros id' Hne. cbn [jobs]. by rewrite lookup_delete_ne.
Qed.

Lemma deleted_job_is_gone_witness :
  exists s1,
    delete_job "job-1" ServerExamples.one_job = (s1, Ok tt) /\
    jobs s1 = delete "job-1" (jobs ServerExamples.one_job).
Proof.
  destruct (deleted_job_is_gone ServerExamples.one_job "job-1" 0 eq_refl)
    as (s1 & H1 & H2 & _).
  by exists s1.
Defined.

End MoreRegistryFacts.

(** ** A copy handed out by the status request *)

Section SnapshotFacts.
Import Py Subprocess ApiServer Registry.

Lemma stable_ret {A} P (a : A) : stable P (mret a).
Proof. by intros s Hs. Qed.

Lemma stable_lift {A} P (r : result A) : stable P (lift r).
Proof. by intros s Hs. Qed.

Lemma stable_raise {A} P e : stable P (raise (A:=A) e).
Proof. by intros s Hs. Qed.

Lemma stable_bind {A B} P (m : M server A) (f : A -> M server B) :
  stable P m -> (forall a, stable P (f a)) -> stable P (m ≫= f).
Proof.
  intros Hm Hf s Hs. unfold mbind, M_bind. specialize (Hm s Hs).
  destruct (m s) as [s1 [a|e]]; [|done]. by apply Hf.
Qed.

Lemma stable_try {A} P (m : M server A) h :
  stable P m -> (forall e, stable P (h e)) -> stable P (try_except m h).
Proof.
  intros Hm Hh s Hs. unfold try_except. specialize (Hm s Hs).
  destruct (m s) as [s1 [a|e]]; [done|]. by apply Hh.
Qed.

Lemma stable_with_tempdir {A} P cleanup (m : M server A) :
  stable P m -> stable P (with_tempdir cleanup m).
Proof.
  intros Hm s Hs. unfold with_tempdir. specialize (Hm s Hs).
  destruct (m s) as [s1 [a|e]]; by destruct cleanup.
Qed.

Section Held.
Variables (c : nat) (v : option job).

Lemma stable_write_job id f : stable (holds c v) (write_job id f).
Proof.
  intros s [[Hc Hjobs] Hread]. unfold write_job, mbind, M_bind, lookup_job.
  destruct (jobs s !! id) as [a|] eqn:Hid; [|done].
  destruct (Hjobs id a Hid) as [Ha Hne]. unfold update_at.
  destruct (heap s !! a) as [j|] eqn:Hj; [|done]. cbn [fst].
  split; [split|]; cbn [jobs heap].
  - by rewrite length_insert.
  - intros id' a' Hid'. rewrite length_insert. by apply (Hjobs id' a').
  - unfold read. cbn. rewrite list_lookup_insert_ne by done. done.
Qed.

Lemma stable_process_evaluation env id request :
  stable (holds c v) (process_evaluation env id request).
Proof.
  unfold process_evaluation, fail_job, complete_job.
  apply stable_try; [|intros e; exact (stable_write_job _ _)].
  apply stable_bind; [apply stable_write_job|intros _].
  apply stable_bind; [apply stable_lift|intros dataset].
  apply stable_bind; [apply stable_lift|intros temp_dir].
  apply stable_with_tempdir.
  apply stable_bind; [apply stable_lift|intros _].
  apply stable_bind; [apply stable_lift|intros _].
  apply stable_bind.
  { destruct (has_predict_py env); [apply stable_ret|apply stable_raise]. }
  intros _. apply stable_bind.
  { destruct (install_requirements env); [apply stable_lift|apply stable_ret]. }
  intros _.
  destruct (run_evaluation (spawn env) _ dataset (quick_test request));
    [|apply stable_write_job].
  apply stable_bind; [apply stable_lift|intros _]. apply stable_write_job.
Qed.

Lemma apply_holds o s : holds c v s -> holds c v (apply o s).
Proof.
  intros Hs. destruct o as [id request now|id|id| |id f|env id request];
    cbn [apply].
  - destruct Hs as [[Hc Hjobs] Hread].
    unfold submit_evaluation, mbind, M_bind, alloc, modify. cbn.
    split; [split|]; cbn [jobs heap].
    + rewrite length_app. lia.
    + intros id' a'. rewrite length_app. cbn.
      destruct (decide (id = id')) as [<-|Hne].
      * rewrite lookup_insert_eq. intros [= <-]. lia.
      * rewrite lookup_insert_ne by done. intros H.
        destruct (Hjobs id' a' H). lia.
    + unfold read in *. cbn. by rewrite lookup_app_l.
  - destruct Hs as [[Hc Hjobs] Hread]. unfold get_job_status.
    destruct (jobs s !! id) as [a|] eqn:Hid; [|done].
    destruct (heap s !! a) as [j|] eqn:Hj; [|done].
    unfold alloc. cbn. split; [split|]; cbn [jobs heap].
    + rewrite length_app. lia.
    + intros id' a' H. rewrite length_app. destruct (Hjobs id' a' H). lia.
    + unfold read in *. cbn. by rewrite lookup_app_l.
  - destruct Hs as [[Hc Hjobs] Hread]. unfold delete_job.
    destruct (jobs s !! id) as [a|] eqn:Hid; [|done].
    cbn. split; [split|]; cbn [jobs heap]; [done| |done].
    intros id' a' H. apply lookup_delete_Some in H as [_ H].
    by apply (Hjobs id' a').
  - done.
  - by apply stable_write_job.
  - by apply stable_process_evaluation.
Qed.

Lemma run_ops_holds ops : forall s, holds c v s -> holds c v (run_ops ops s).
Proof.
  induction ops as [|o ops IH]; intros s Hs; [done|].
  cbn. apply IH. by apply apply_holds.
Qed.

End Held.

(** The registry stays well formed under every operation. *)
Lemma apply_well_formed o s : well_formed s -> well_formed (apply o s).
Proof.
  intros Hwf. destruct o as [id request now|id|id| |id f|env id request];
    cbn [apply].
  - unfold submit_evaluation, mbind, M_bind, alloc, modify. cbn.
    intros id' a'. cbn [jobs heap]. rewrite length_app. cbn.
    destruct (decide (id = id')) as [<-|Hne].
    + rewrite lookup_insert_eq. intros [= <-]. lia.
    + rewrite lookup_insert_ne by done. intros H. specialize (Hwf id' a' H). lia.
  - unfold get_job_status.
    destruct (jobs s !! id) as [a|] eqn:Hid; [|done].
    destruct (heap s !! a) as [j|] eqn:Hj; [|done].
    unfold alloc. cbn. intros id' a' H. cbn in *. rewrite length_app.
    specialize (Hwf id' a' H). lia.
  - unfold delete_job. destruct (jobs s !! id) as [a|] eqn:Hid; [|done].
    cbn. intros id' a' H. cbn in *.
    apply lookup_delete_Some in H as [_ H]. by apply (Hwf id' a').
  - done.
  - assert (stable well_formed (write_job id f)) as Hst; [|by apply Hst].
    clear. intros s Hwf. unfold write_job, mbind, M_bind, lookup_job.
    destruct (jobs s !! id) as [a|] eqn:Hid; [|done]. unfold update_at.
    destruct (heap s !! a) as [j|] eqn:Hj; [|done]. cbn.
    intros id' a' H. cbn in *. rewrite length_insert. by apply (Hwf id' a').
  - revert s Hwf. fold (stable well_formed (process_evaluation env id request)).
    assert (forall id f, stable well_formed (write_job id f)) as Hw.
    { clear. intros id f s Hwf. unfold write_job, mbind, M_bind, lookup_job.
      destruct (jobs s !! id) as [a|] eqn:Hid; [|done]. unfold update_at.
      destruct (heap s !! a) as [j|] eqn:Hj; [|done]. cbn.
      intros id' a' H. cbn in *. rewrite length_insert. by apply (Hwf id' a'). }
    unfold process_evaluation, fail_job, complete_job.
    apply stable_try; [|intros e; exact (Hw _ _)].
    apply stable_bind; [apply Hw|intros _].
    apply stable_bind; [apply stable_lift|intros dataset].
    apply stable_bind; [apply stable_lift|intros temp_dir].
    apply stable_with_tempdir.
    apply stable_bind; [apply stable_lift|intros _].
    apply stable_bind; [apply stable_lift|intros _].
    apply stable_bind.
    { destruct (has_predict_py env); [apply stable_ret|apply stable_raise]. }
    intros _. apply stable_bind.
    { destruct (install_requirements env); [apply stable_lift|apply stable_ret]. }
    intros _.
    destruct (run_evaluation (spawn env) _ dataset (quick_test request));
      [|apply Hw].
    apply stable_bind; [apply stable_lift|intros _]. apply Hw.
Qed.

(** The dict that [get_job_status] returns is a copy: it sits at a new
    address, reads what the job read at that moment, and keeps reading
    exactly that through every later submission, status request, deletion,
    listing, completion write and whole background task, on any id. *)
Theorem status_copy_is_a_snapshot s id s1 c :
  well_formed s ->
  get_job_status id s = (s1, Ok c) ->
  (exists a, jobs s !! id = Some a /\ a <> c /\ read s1 c = read s a /\
             is_Some (read s1 c)) /\
  forall ops, read (run_ops ops s1) c = read s1 c.
Proof.
  intros Hwf. unfold get_job_status.
  destruct (jobs s !! id) as [a|] eqn:Hid; [|done].
  destruct (heap s !! a) as [j|] eqn:Hj; [|done].
  unfold alloc. intros [= <- <-].
  pose proof (Hwf id a Hid) as Ha.
  assert (read {| jobs := jobs s; heap := heap s ++ [j] |} (length (heap s))
          = Some j) as Hread.
  { unfold read. cbn. by rewrite lookup_app_r, Nat.sub_diag. }
  split.
  - exists a. split; [done|]. split; [lia|]. rewrite Hread.
    split; [by unfold read|done].
  - intros ops. rewrite Hread.
    apply (run_ops_holds (length (heap s)) (Some j) ops
             {| jobs := jobs s; heap := heap s ++ [j] |}).
    split; [split|done]; cbn [jobs heap].
    + rewrite length_app. cbn. lia.
    + intros id' a' H. rewrite length_app. specialize (Hwf id' a' H). lia.
Qed.

Lemma status_copy_is_a_snapshot_witness :
  exists s1,
    get_job_status "job-1" ServerExamples.one_job = (s1, Ok 1) /\
    read (run_ops [Process (ServerExamples.env_with (ServerExamples.child 12)
                              (Ok tt)) "job-1" ServerExamples.request1;
                   Delete "job-1"] s1) 1
    = read s1 1.
Proof.
  destruct (get_job_status "job-1" ServerExamples.one_job) as [s1 r] eqn:Hget.
  exists s1.
  assert (r = Ok 1) as -> by (by vm_compute in Hget; injection Hget as _ <-).
  split; [done|].
  refine (proj2 (status_copy_is_a_snapshot ServerExamples.one_job "job-1" s1 1
                   _ Hget) _).
  apply (apply_well_formed
           (Submit "job-1" ServerExamples.request1 "12:00:00")
           ServerExamples.empty_server).
  intros id a H. cbn in H. by rewrite lookup_empty in H.
Defined.

End SnapshotFacts.

(** ** The background task, from start to end *)

Section TaskFacts.
Import Py Subprocess ApiServer Registry.

(** One write on the state a first write left. *)
Lemma write_job_again s id a j v f :
  jobs s !! id = Some a -> heap s !! a = Some j ->
  write_job id f {| jobs := jobs s; heap := <[a := v]> (heap s) |}
  = ({| jobs := jobs s; heap := <[a := f v]> (heap s) |}, Ok tt).
Proof.
  intros Hid Ha.
  erewrite write_job_eq; [|exact Hid|by eapply read_written].
  cbn [jobs heap]. by rewrite list_insert_insert_eq.
Qed.

(** The background task on a job the registry holds: it returns, and the
    job dict it leaves is [final_job]. *)
Lemma process_evaluation_final env id request s a j :
  jobs s !! id = Some a -> heap s !! a = Some j ->
  process_evaluation env id request s
  = ({| jobs := jobs s; heap := <[a := final_job env request j]> (heap s) |},
     Ok tt).
Proof.
  intros Hid Ha.
  unfold process_evaluation, final_job, setup, try_except, with_tempdir,
    fail_job, complete_job, leaving.
  unfold mbind at 1, M_bind at 1. rewrite (write_job_eq _ _ _ _ _ Hid Ha).
  unfold mbind at 1, M_bind at 1, lift at 1.
  destruct (ensure_test_dataset env) as [dataset|e];
    [|by rewrite (write_job_again _ _ _ _ _ _ Hid Ha)].
  unfold mbind at 1, M_bind at 1, lift at 1.
  destruct (make_tempdir env) as [temp_dir|e];
    [|by rewrite (write_job_again _ _ _ _ _ _ Hid Ha)].
  unfold mbind at 1, M_bind at 1, lift at 1.
  destruct (download_submission env) as [[]|e]; cbn [mbind result_bind];
    [|destruct (cleanup env); by rewrite (write_job_again _ _ _ _ _ _ Hid Ha)].
  unfold mbind at 1, M_bind at 1, lift at 1.
  destruct (extract_submission env) as [[]|e]; cbn [mbind result_bind];
    [|destruct (cleanup env); by rewrite (write_job_again _ _ _ _ _ _ Hid Ha)].
  unfold mbind at 1, M_bind at 1.
  destruct (has_predict_py env); cbn [mbind result_bind mret M_ret raise];
    [|destruct (cleanup env); by rewrite (write_job_again _ _ _ _ _ _ Hid Ha)].
  unfold mbind at 1, M_bind at 1.
  destruct (install_requirements env) as [[[]|e]|]; cbn [mret M_ret lift];
    try (destruct (cleanup env);
         by rewrite (write_job_again _ _ _ _ _ _ Hid Ha)).
  - destruct (run_evaluation _ _ _ _) as [res eval_time|err details].
    + unfold mbind at 1, M_bind at 1, lift at 1.
      destruct (put_object env) as [[]|e];
        [|destruct (cleanup env);
          by rewrite (write_job_again _ _ _ _ _ _ Hid Ha)].
      rewrite (write_job_again _ _ _ _ _ _ Hid Ha).
      destruct (cleanup env); [done|].
      by rewrite (write_job_again _ _ _ _ _ _ Hid Ha).
    + rewrite (write_job_again _ _ _ _ _ _ Hid Ha).
      destruct (cleanup env); [done|].
      by rewrite (write_job_again _ _ _ _ _ _ Hid Ha).
  - destruct (run_evaluation _ _ _ _) as [res eval_time|err details].
    + unfold mbind at 1, M_bind at 1, lift at 1.
      destruct (put_object env) as [[]|e];
        [|destruct (cleanup env);
          by rewrite (write_job_again _ _ _ _ _ _ Hid Ha)].
      rewrite (write_job_again _ _ _ _ _ _ Hid Ha).
      destruct (cleanup env); [done|].
      by rewrite (write_job_again _ _ _ _ _ _ Hid Ha).
    + rewrite (write_job_again _ _ _ _ _ _ Hid Ha).
      destruct (cleanup env); [done|].
      by rewrite (write_job_again _ _ _ _ _ _ Hid Ha).
Qed.


Lemma run_in_time p :
  (seconds p <= 900)%Q -> returncode p = 0%Z -> run p 900 = Ok tt.
Proof.
  intros Hle Hrc. unfold run.
  apply Qle_bool_iff in Hle. rewrite Hle, Hrc. done.
Qed.

Lemma run_ok_inv p :
  run p 900 = Ok tt -> (seconds p <= 900)%Q /\ returncode p = 0%Z.
Proof.
  unfold run. destruct (Qle_bool (seconds p) 900) eqn:Hle; [|done].
  apply Qle_bool_iff in Hle. cbn.
  destruct (returncode p =? 0)%Z eqn:Hrc; [|done]. intros _.
  split; [done|]. by apply Z.eqb_eq.
Qed.

Lemma api_run_evaluation_success spawn submission_dir dataset quick res t :
  ApiServer.run_evaluation spawn submission_dir dataset quick = Success res t
  <-> (seconds (spawn (cmd "evaluate.py" submission_dir dataset quick)) <= 900)%Q /\
      returncode (spawn (cmd "evaluate.py" submission_dir dataset quick)) = 0%Z /\
      written (spawn (cmd "evaluate.py" submission_dir dataset quick)) = Json res /\
      measured (spawn (cmd "evaluate.py" submission_dir dataset quick)) = t.
Proof.
  unfold ApiServer.run_evaluation.
  set (p := spawn (cmd "evaluate.py" submission_dir dataset quick)). split.
  - destruct (run p 900) as [[]|e] eqn:Hrun; cbn.
    + apply run_ok_inv in Hrun as [Hle Hrc].
      destruct (written p) as [|why|r]; cbn; try done.
      by intros [= <- <-].
    + by destruct e.
  - intros (Hle & Hrc & Hfile & <-).
    rewrite (run_in_time p Hle Hrc), Hfile. done.
Qed.

Lemma handler_run_evaluation_success spawn submission_dir dataset quick res t :
  Handler.run_evaluation spawn submission_dir dataset quick = Success res t
  <-> (seconds (spawn (cmd "evaluate.py" submission_dir dataset quick)) <= 900)%Q /\
      returncode (spawn (cmd "evaluate.py" submission_dir dataset quick)) = 0%Z /\
      written (spawn (cmd "evaluate.py" submission_dir dataset quick)) = Json res /\
      measured (spawn (cmd "evaluate.py" submission_dir dataset quick)) = t.
Proof.
  unfold Handler.run_evaluation.
  set (p := spawn (cmd "evaluate.py" submission_dir dataset quick)). split.
  - destruct (run p 900) as [[]|e] eqn:Hrun; cbn.
    + apply run_ok_inv in Hrun as [Hle Hrc].
      destruct (written p) as [|why|r]; cbn; try done.
      by intros [= <- <-].
    + by destruct e.
  - intros (Hle & Hrc & Hfile & <-).
    rewrite (run_in_time p Hle Hrc), Hfile. done.
Qed.

(** [run_evaluation] succeeds exactly when the child exits within the 900
    seconds with status 0 and leaves a results file that is JSON; the
    results and the measured time are handed on unchanged, and the API
    server and the handler agree on it. *)
Theorem run_evaluation_succeeds_iff spawn submission_dir dataset quick res t :
  let p := spawn (cmd "evaluate.py" submission_dir dataset quick) in
  (ApiServer.run_evaluation spawn submission_dir dataset quick = Success res t
   <-> (seconds p <= 900)%Q /\ returncode p = 0%Z /\ written p = Json res /\
       measured p = t) /\
  (Handler.run_evaluation spawn submission_dir dataset quick = Success res t
   <-> ApiServer.run_evaluation spawn submission_dir dataset quick
       = Success res t).
Proof.
  intros p. split; [apply api_run_evaluation_success|].
  by rewrite handler_run_evaluation_success, api_run_evaluation_success.
Qed.

Lemma failed_child_spec spawn submission_dir dataset quick :
  let p := spawn (cmd "evaluate.py" submission_dir dataset quick) in
  (seconds p <= 900)%Q -> returncode p <> 0%Z ->
  Handler.run_evaluation spawn submission_dir dataset quick
  = Error "Evaluation failed" (Some (stderr p)) /\
  exists msg,
    ApiServer.run_evaluation spawn submission_dir dataset quick
    = Error msg None.
Proof.
  intros p Hle Hrc.
  unfold Handler.run_evaluation, ApiServer.run_evaluation. fold p.
  unfold run. apply Qle_bool_iff in Hle. rewrite Hle.
  apply Z.eqb_neq in Hrc. rewrite Hrc. cbn. split; [done|]. by eexists.
Qed.

(** A child that exits in time with a non-zero status: the handler keeps
    its stderr under [details], the API server returns the message of the
    exception alone, and neither returns results. *)
Theorem failed_child_is_reported spawn submission_dir dataset quick :
  let p := spawn (cmd "evaluate.py" submission_dir dataset quick) in
  (seconds p <= 900)%Q -> returncode p <> 0%Z ->
  Handler.run_evaluation spawn submission_dir dataset quick
  = Error "Evaluation failed" (Some (stderr p)) /\
  exists msg,
    ApiServer.run_evaluation spawn submission_dir dataset quick
    = Error msg None.
Proof. exact (failed_child_spec spawn submission_dir dataset quick). Qed.

Lemma failed_child_is_reported_witness :
  Handler.run_evaluation
    (fun _ => {| seconds := 3; returncode := 1; stderr := "Traceback";
                 written := NoFile; measured := 3%float |})
    "/tmp/tmp1/submission" "/workspace/dataset_test" true
  = Error "Evaluation failed" (Some "Traceback").
Proof.
  exact (proj1 (failed_child_is_reported
                  (fun _ => {| seconds := 3; returncode := 1;
                               stderr := "Traceback"; written := NoFile;
                               measured := 3%float |})
                  "/tmp/tmp1/submission" "/workspace/dataset_test" true
                  ltac:(discriminate) ltac:(discriminate))).
Defined.

(** Whatever happens outside the server, the background task of a job the
    registry holds returns and leaves the job terminal: [completed] with
    results, or [failed] with an error; [started_at] and [completed_at]
    are set, the fields of the submission are kept, and no other dict and
    no id is touched. *)
Theorem background_task_ends_terminal env id request s a j :
  jobs s !! id = Some a -> heap s !! a = Some j ->
  exists s' j',
    process_evaluation env id request s = (s', Ok tt) /\
    read s' a = Some j' /\ jobs s' = jobs s /\
    (forall b, b <> a -> read s' b = read s b) /\
    (job_status j' = completed /\ is_Some (results j') /\ error j' = error j
     \/ job_status j' = failed /\ is_Some (error j')) /\
    started_at j' = Some (now_started env) /\ is_Some (completed_at j') /\
    job_id j' = job_id j /\ submission_id j' = submission_id j /\
    full_name j' = full_name j /\ created_at j' = created_at j.
Proof.
  intros Hid Ha. eexists _, (final_job env request j).
  rewrite (process_evaluation_final _ _ _ _ _ _ Hid Ha).
  split; [done|]. split; [by eapply read_written|]. split; [done|].
  split; [intros b Hb; by apply read_other|].
  unfold final_job.
  repeat case_match; cbn; repeat split; eauto.
Qed.

(** The background task when every step succeeds: the job is [completed],
    its results hold the metrics of the results file, the key
    [results/<name with _ for spaces>/<time>/results.json] and the measured
    time, and its [error] is left as it was. *)
Theorem background_task_completes env id request s a j dataset temp_dir res :
  let p := spawn env (cmd "evaluate.py" (temp_dir +:+ "/submission") dataset
                        (quick_test request)) in
  jobs s !! id = Some a -> heap s !! a = Some j ->
  ensure_test_dataset env = Ok dataset -> make_tempdir env = Ok temp_dir ->
  download_submission env = Ok tt -> extract_submission env = Ok tt ->
  has_predict_py env = true ->
  install_requirements env = None \/ install_requirements env = Some (Ok tt) ->
  (seconds p <= 900)%Q -> returncode p = 0%Z -> written p = Json res ->
  put_object env = Ok tt -> cleanup env = Ok tt ->
  exists s' j',
    process_evaluation env id request s = (s', Ok tt) /\
    read s' a = Some j' /\ job_status j' = completed /\
    results j'
    = Some {| results_submission_id := request_submission_id request;
              results_metrics := Evaluate.metrics_of res;
              results_s3_key :=
                "results/" +:+ replace_spaces (request_full_name request)
                +:+ "/" +:+ pretty (unix_time env) +:+ "/results.json";
              results_eval_time := measured p |} /\
    error j' = error j /\ completed_at j' = Some (now_finished env) /\
    started_at j' = Some (now_started env).
Proof.
  intros p Hid Ha Hds Htmp Hdl Hex Hpy Hreq Hle Hrc Hfile Hput Hclean.
  eexists _, (final_job env request j).
  rewrite (process_evaluation_final _ _ _ _ _ _ Hid Ha).
  split; [done|]. split; [by eapply read_written|].
  assert (setup env = Ok tt) as Hsetup.
  { unfold setup. rewrite Hdl, Hex, Hpy. cbn. by destruct Hreq as [-> | ->]. }
  assert (run_evaluation (spawn env) (temp_dir +:+ "/submission") dataset
            (quick_test request) = Success res (measured p)) as Hrun.
  { by apply api_run_evaluation_success. }
  unfold final_job. rewrite Hds, Htmp, Hsetup, Hrun, Hput, Hclean. done.
Qed.

(** The removal of the temporary directory raises after the job was
    completed: the handler of the task writes a failure over it, and the
    job ends [failed] with the message of that exception while it still
    carries the results. *)
Theorem cleanup_error_fails_a_completed_job env id request s a j dataset
    temp_dir res e :
  let p := spawn env (cmd "evaluate.py" (temp_dir +:+ "/submission") dataset
                        (quick_test request)) in
  jobs s !! id = Some a -> heap s !! a = Some j ->
  ensure_test_dataset env = Ok dataset -> make_tempdir env = Ok temp_dir ->
  download_submission env = Ok tt -> extract_submission env = Ok tt ->
  has_predict_py env = true ->
  install_requirements env = None \/ install_requirements env = Some (Ok tt) ->
  (seconds p <= 900)%Q -> returncode p = 0%Z -> written p = Json res ->
  put_object env = Ok tt -> cleanup env = Raise e ->
  exists s' j',
    process_evaluation env id request s = (s', Ok tt) /\
    read s' a = Some j' /\ job_status j' = failed /\
    error j' = Some (str_of_exn e) /\
    results j' = Some (stored_results env request res (measured p)) /\
    completed_at j' = Some (now_failed env).
Proof.
  intros p Hid Ha Hds Htmp Hdl Hex Hpy Hreq Hle Hrc Hfile Hput Hclean.
  eexists _, (final_job env request j).
  rewrite (process_evaluation_final _ _ _ _ _ _ Hid Ha).
  split; [done|]. split; [by eapply read_written|].
  assert (setup env = Ok tt) as Hsetup.
  { unfold setup. rewrite Hdl, Hex, Hpy. cbn. by destruct Hreq as [-> | ->]. }
  assert (run_evaluation (spawn env) (temp_dir +:+ "/submission") dataset
            (quick_test request) = Success res (measured p)) as Hrun.
  { by apply api_run_evaluation_success. }
  unfold final_job. rewrite Hds, Htmp, Hsetup, Hrun, Hput, Hclean. done.
Qed.

(** A step before the evaluation raises: the job ends [failed] with the
    message of the exception (of the removal of the directory, when that
    raises as well), its results are left as they were, and a submission
    without [predict.py] fails with the message of the code. *)
Theorem setup_failure_fails_the_job env id request s a j :
  jobs s !! id = Some a -> heap s !! a = Some j ->
  (forall e,
     ensure_test_dataset env = Raise e \/
     (exists dataset, ensure_test_dataset env = Ok dataset) /\
     make_tempdir env = Raise e \/
     (exists dataset temp_dir e0,
        ensure_test_dataset env = Ok dataset /\
        make_tempdir env = Ok temp_dir /\ setup env = Raise e0 /\
        e = leaving (cleanup env) e0) ->
     exists s' j',
       process_evaluation env id request s = (s', Ok tt) /\
       read s' a = Some j' /\ job_status j' = failed /\
       error j' = Some (str_of_exn e) /\ results j' = results j /\
       completed_at j' = Some (now_failed env)) /\
  (download_submission env = Ok tt -> extract_submission env = Ok tt ->
   has_predict_py env = false ->
   setup env = Raise (FileNotFoundError "predict.py not found in submission")).
Proof.
  intros Hid Ha. split.
  - intros e Hcase. eexists _, (final_job env request j).
    rewrite (process_evaluation_final _ _ _ _ _ _ Hid Ha).
    split; [done|]. split; [by eapply read_written|]. unfold final_job.
    destruct Hcase as [-> | [[[dataset ->] ->] |
      (dataset & temp_dir & e0 & -> & -> & -> & ->)]]; done.
  - intros Hdl Hex Hpy. unfold setup. by rewrite Hdl, Hex, Hpy.
Qed.

End TaskFacts.

(** ** handler.py: the serverless handler *)

Section HandlerFacts.
Import Py Subprocess Handler.

(** Without a submission key (no [input], no key, or an empty key) the
    handler answers with the error dict at once, whatever the state of the
    dataset, the storage or the child. *)
Theorem handler_without_key e :
  handler e None = ErrorOnly "Missing submission_s3_key in job input" /\
  forall job,
    submission_s3_key job = None \/ submission_s3_key job = Some EmptyString ->
    handler e (Some job) = ErrorOnly "Missing submission_s3_key in job input".
Proof.
  split; [done|]. intros job [H|H]; unfold handler; cbn; by rewrite H.
Qed.

(** The handler answers with the success dict exactly when every step
    succeeded: dataset, temporary directory, download, extraction,
    [predict.py] present, requirements installed, the child in time with
    status 0 and a JSON results file, the upload, and the removal of the
    directory. The dict then carries the submission id of the input, the
    metrics of the file, the measured time, and the key
    [results/<full_name>/<time>/results.json] with the name as given
    ([Unknown] when the input has none). *)
Theorem handler_succeeds_iff e job c key i k m t :
  submission_s3_key job = Some (String c key) ->
  handler e (Some job) = Succeeded i k m t <->
  exists dataset temp_dir res,
    ensure_test_dataset e = Ok dataset /\ make_tempdir e = Ok temp_dir /\
    download_submission e = Ok tt /\ extract_submission e = Ok tt /\
    has_predict_py e = true /\
    (install_requirements e = None \/ install_requirements e = Some (Ok tt)) /\
    Handler.run_evaluation (spawn e) (temp_dir +:+ "/submission") dataset
      (default false (quick_test job)) = Success res t /\
    upload_string_to_r2 e = Ok tt /\ cleanup e = Ok tt /\
    i = submission_id job /\ m = Evaluate.metrics_of res /\
    k = "results/" +:+ default "Unknown" (full_name job) +:+ "/"
        +:+ pretty (unix_time e) +:+ "/results.json".
Proof.
  intros Hkey. unfold handler.
  cbn -[Handler.run_evaluation with_tempdir pretty String.append].
  rewrite Hkey. split.
  - destruct (ensure_test_dataset e) as [dataset|ex]; cbn; [|done].
    destruct (make_tempdir e) as [temp_dir|ex]; cbn; [|done].
    unfold with_tempdir.
    destruct (cleanup e) as [[]|ex]; [|done].
    destruct (download_submission e) as [[]|ex]; cbn; [|done].
    destruct (extract_submission e) as [[]|ex]; cbn; [|done].
    destruct (has_predict_py e); cbn; [|done].
    destruct (install_requirements e) as [[[]|ex]|] eqn:Hreq; cbn; try done.
    + destruct (Handler.run_evaluation _ _ _ _) as [res t'|err details] eqn:Hrun;
        [|done].
      destruct (upload_string_to_r2 e) as [[]|ex]; cbn; [|done].
      intros [= <- <- <- <-]. exists dataset, temp_dir, res.
      repeat split; auto.
    + destruct (Handler.run_evaluation _ _ _ _) as [res t'|err details] eqn:Hrun;
        [|done].
      destruct (upload_string_to_r2 e) as [[]|ex]; cbn; [|done].
      intros [= <- <- <- <-]. exists dataset, temp_dir, res.
      repeat split; auto.
  - intros (dataset & temp_dir & res & -> & -> & Hdl & Hex & Hpy & Hreq & Hrun
            & Hup & Hclean & -> & -> & ->).
    cbn. unfold with_tempdir. rewrite Hclean, Hdl, Hex, Hpy. cbn.
    destruct Hreq as [-> | ->]; cbn; by rewrite Hrun, Hup.
Qed.

Lemma handler_succeeds_iff_witness :
  handler (ServerExamples.handler_env true (Ok tt))
    (Some ServerExamples.ada_input)
  = Succeeded (Some 7%Z) "results/Ada Lovelace/1700000000/results.json"
      Trace.zero_metrics 12.5%float.
Proof.
  refine (proj2 (handler_succeeds_iff
                   (ServerExamples.handler_env true (Ok tt))
                   ServerExamples.ada_input "s" "ubmissions/ada.tar.gz"
                   _ _ _ _ eq_refl) _).
  exists "/tmp/dataset_test", "/tmp/tmp1", ServerExamples.no_results.
  repeat split; try reflexivity. by left.
Defined.

(** The removal of the temporary directory raises: the handler answers
    with the message of that exception alone, whatever happened inside the
    block, also after the results were uploaded. *)
Theorem handler_cleanup_error_replaces_the_answer e job c key dataset
    temp_dir ex :
  submission_s3_key job = Some (String c key) ->
  ensure_test_dataset e = Ok dataset -> make_tempdir e = Ok temp_dir ->
  cleanup e = Raise ex ->
  handler e (Some job) = ErrorOnly (str_of_exn ex).
Proof.
  intros Hkey Hds Htmp Hclean. unfold handler.
  cbn -[Handler.run_evaluation with_tempdir pretty String.append].
  rewrite Hkey, Hds. cbn. rewrite Htmp. cbn. unfold with_tempdir.
  by rewrite Hclean.
Qed.

Lemma handler_cleanup_error_replaces_the_answer_witness :
  handler
    (ServerExamples.handler_env true (Raise (Exception "Directory not empty")))
    (Some ServerExamples.ada_input)
  = ErrorOnly "Directory not empty".
Proof.
  exact (handler_cleanup_error_replaces_the_answer
           (ServerExamples.handler_env true
              (Raise (Exception "Directory not empty")))
           ServerExamples.ada_input "s" "ubmissions/ada.tar.gz"
           "/tmp/dataset_test" "/tmp/tmp1" (Exception "Directory not empty")
           eq_refl eq_refl eq_refl eq_refl).
Defined.

(** A failure of the evaluation itself is handed on as [run_evaluation]
    returned it: the timeout keeps its message and has no details, and a
    submission without [predict.py] gets the error dict of the code. *)
Theorem handler_hands_on_evaluation_errors e job c key dataset temp_dir :
  submission_s3_key job = Some (String c key) ->
  ensure_test_dataset e = Ok dataset -> make_tempdir e = Ok temp_dir ->
  download_submission e = Ok tt -> extract_submission e = Ok tt ->
  cleanup e = Ok tt ->
  (has_predict_py e = false ->
   handler e (Some job) = ErrorOnly "predict.py not found in submission") /\
  (has_predict_py e = true ->
   install_requirements e = None \/ install_requirements e = Some (Ok tt) ->
   forall err details,
     Handler.run_evaluation (spawn e) (temp_dir +:+ "/submission") dataset
       (default false (quick_test job)) = Error err details ->
     handler e (Some job) = HandedOn (Error err details)).
Proof.
  intros Hkey Hds Htmp Hdl Hex Hclean. unfold handler.
  cbn -[Handler.run_evaluation with_tempdir pretty String.append].
  rewrite Hkey, Hds. cbn. rewrite Htmp. cbn. unfold with_tempdir.
  rewrite Hclean, Hdl. cbn. rewrite Hex. cbn. split.
  - by intros ->.
  - intros -> Hreq err details Hrun. cbn.
    destruct Hreq as [-> | ->]; cbn; by rewrite Hrun.
Qed.

Lemma handler_hands_on_evaluation_errors_witness :
  handler (ServerExamples.handler_env false (Ok tt))
    (Some ServerExamples.ada_input)
  = ErrorOnly "predict.py not found in submission".
Proof.
  exact (proj1 (handler_hands_on_evaluation_errors
                  (ServerExamples.handler_env false (Ok tt))
                  ServerExamples.ada_input "s" "ubmissions/ada.tar.gz"
                  "/tmp/dataset_test" "/tmp/tmp1"
                  eq_refl eq_refl eq_refl eq_refl eq_refl eq_refl) eq_refl).
Defined.

End HandlerFacts.

(** ** The script, the child and the job *)

Section ChildFacts.
Import Py Subprocess Evaluate.
Context {PS : Type}.
Variable predict : PS -> string -> outcome * PS.

(** The evaluation of a job succeeds exactly when the child took no more
    than 900 seconds and one of two things happened. Either the script
    imported [predict], [evaluate_submission] returned and the results
    were saved: the results of the job are then the ones
    [evaluate_submission] returned. Or code of the submission (the import
    of [predict.py], a call of [predict], the truth test of what it
    returned) ended the script by a raise outside [Exception] with exit
    status 0, as [sys.exit()] does, before anything was saved, and the
    file [results.json] that the submission has at the output path loads:
    the results of the job are then those of that file, which
    [evaluate_submission] never produced. Both servers agree on this. When
    the run raises an [Exception] (a prediction of blanks, a superscript
    digit), the script ends with status 1: the API server reports an error
    without results and the handler reports the stderr of the child. *)
Theorem job_succeeds_on_saved_or_shipped_results import_predict d max_samples
    w stale save secs clock err submission_dir dataset quick :
  let p := Main.child secs clock err
             (Main.main import_predict predict d max_samples w stale save) in
  (forall res t,
     ApiServer.run_evaluation (fun _ => p) submission_dir dataset quick
     = Success res t
     <-> (secs <= 900)%Q /\ t = clock /\
         ((import_predict = Returned tt /\
           (exists w',
              evaluate_submission predict d max_samples w = (w', Returned res)) /\
           save = Main.Saved) \/
          (exists x,
             Main.left_early import_predict predict d max_samples w = Some x /\
             exit_status x = 0%Z /\ stale = Json res))) /\
  (forall res t,
     Handler.run_evaluation (fun _ => p) submission_dir dataset quick
     = Success res t
     <-> ApiServer.run_evaluation (fun _ => p) submission_dir dataset quick
         = Success res t) /\
  (forall w' e,
     import_predict = Returned tt ->
     evaluate_submission predict d max_samples w = (w', Raised e) ->
     (secs <= 900)%Q ->
     Handler.run_evaluation (fun _ => p) submission_dir dataset quick
     = Error "Evaluation failed" (Some err) /\
     exists msg,
       ApiServer.run_evaluation (fun _ => p) submission_dir dataset quick
       = Error msg None).
Proof.
  intros p. split; [|split].
  - intros res t. rewrite api_run_evaluation_success.
    unfold p, Main.child, Main.main, Main.left_early.
    cbn [seconds returncode written measured].
    destruct import_predict as [[]|e0|x0]; cbn.
    + destruct (evaluate_submission predict d max_samples w) as [w1 [r|e1|x1]];
        cbn.
      * destruct save as [|e2 found]; cbn.
        -- split.
           ++ intros (Hle & _ & [= <-] & <-). split; [done|]. split; [done|].
              left. eauto.
           ++ intros (Hle & -> & [(_ & [w' [= _ <-]] & _)|(x & [=] & _)]).
              done.
        -- split; [by intros (_ & [=] & _)|].
           by intros (_ & _ & [(_ & _ & [=])|(x & [=] & _)]).
      * split; [by intros (_ & [=] & _)|].
        by intros (_ & _ & [(_ & [w' [=]] & _)|(x & [=] & _)]).
      * split.
        -- intros (Hle & Hrc & -> & <-). split; [done|]. split; [done|].
           right. by exists x1.
        -- intros (Hle & -> & [(_ & [w' [=]] & _)|(x & [= <-] & Hrc & ->)]).
           done.
    + split; [by intros (_ & [=] & _)|].
      by intros (_ & _ & [([=] & _)|(x & [=] & _)]).
    + split.
      * intros (Hle & Hrc & -> & <-). split; [done|]. split; [done|].
        right. by exists x0.
      * intros (Hle & -> & [([=] & _)|(x & [= <-] & Hrc & ->)]). done.
  - intros res t.
    by rewrite handler_run_evaluation_success, api_run_evaluation_success.
  - intros w' e -> Hrun Hle.
    assert (returncode p <> 0%Z /\ stderr p = err) as [Hrc Herr].
    { unfold p, Main.child, Main.main. cbn. by rewrite Hrun. }
    destruct (failed_child_spec (fun _ => p) submission_dir dataset
                quick Hle Hrc) as [Hh Ha].
    by rewrite Herr in Hh.
Qed.

End ChildFacts.

Section ChildWitness.
Import Py Subprocess Evaluate Examples.

Lemma job_succeeds_on_saved_or_shipped_results_witness :
  ApiServer.run_evaluation
    (fun _ => Main.child 30 30%float ""
                (Main.main (Exited (SystemExit 0)) (scripted []) single_dir
                   None fresh_world (Json ServerExamples.no_results)
                   Main.Saved))
    "/tmp/tmp1/submission" "/workspace/dataset_test" false
  = Success ServerExamples.no_results 30%float /\
  Handler.run_evaluation
    (fun _ => Main.child 30 30%float "IndexError: list index out of range"
                (Main.main (Returned tt)
                   (scripted [Returns (VStr " ") 0.25%float;
                              Returns (VStr " ") 0.25%float])
                   single_dir None fresh_world NoFile Main.Saved))
    "/tmp/tmp1/submission" "/workspace/dataset_test" false
  = Error "Evaluation failed" (Some "IndexError: list index out of range").
Proof.
  split.
  - apply (proj2 (proj1 (job_succeeds_on_saved_or_shipped_results (scripted [])
                           (Exited (SystemExit 0)) single_dir None fresh_world
                           (Json ServerExamples.no_results) Main.Saved
                           30 30%float "" "/tmp/tmp1/submission"
                           "/workspace/dataset_test" false)
                    ServerExamples.no_results 30%float)).
    split; [discriminate|]. split; [done|]. right.
    exists (SystemExit 0). done.
  - destruct (evaluate_submission
                (scripted [Returns (VStr " ") 0.25%float;
                           Returns (VStr " ") 0.25%float])
                single_dir None fresh_world) as [w' [res|e|x]] eqn:Hrun;
      [by vm_compute in Hrun| |by vm_compute in Hrun].
    exact (proj1 (proj2 (proj2 (job_succeeds_on_saved_or_shipped_results
                                  (scripted [Returns (VStr " ") 0.25%float;
                                             Returns (VStr " ") 0.25%float])
                                  (Returned tt) single_dir None fresh_world
                                  NoFile Main.Saved 30 30%float
                                  "IndexError: list index out of range"
                                  "/tmp/tmp1/submission"
                                  "/workspace/dataset_test" false))
                    w' e eq_refl Hrun ltac:(discriminate))).
Defined.

End ChildWitness.

(** ** The health check *)

Section RootFacts.
Import Py Subprocess ApiServer Registry.

Lemma filter_length_perm {A} (f : A -> bool) l l' :
  Permutation l l' -> length (List.filter f l) = length (List.filter f l').
Proof.
  induction 1 as [|x l l' _ IH|x y l|l l' l'' _ IH1 _ IH2]; cbn.
  - done.
  - destruct (f x); cbn; by rewrite IH.
  - by destruct (f x), (f y).
  - by rewrite IH1.
Qed.

(** [active_jobs] never exceeds the number of jobs, and a submission under
    a new id raises it by one: the new job is queued. *)
Theorem active_jobs_counts_queued_and_processing s :
  root s <= size (jobs s) /\
  forall id request now,
    well_formed s -> jobs s !! id = None ->
    root (submit_evaluation id request now s).1 = S (root s).
Proof.
  split.
  - unfold root. etrans; [apply List.filter_length_le|].
    by rewrite length_fmap, length_map_to_list.
  - intros id request now Hwf Hid.
    unfold submit_evaluation, mbind, M_bind, alloc, modify, root, mret, M_ret.
    cbn [fst jobs heap].
    rewrite (filter_length_perm _ _
               ((id, length (heap s)) :: map_to_list (jobs s)).*2).
    2:{ apply fmap_Permutation. by apply map_to_list_insert. }
    cbn [fmap list_fmap snd List.filter].
    rewrite lookup_app_r, Nat.sub_diag by done. cbn [lookup list_lookup is_active job_status].
    cbn [length]. f_equal. f_equal. apply List.filter_ext_in.
    intros a Ha. apply list_elem_of_In, list_elem_of_fmap in Ha
      as [[id' a'] [-> Hin]].
    apply elem_of_map_to_list in Hin. cbn.
    by rewrite lookup_app_l by (by apply (Hwf id' a')).
Qed.

Lemma active_jobs_counts_queued_and_processing_witness :
  root ServerExamples.one_job = 1.
Proof.
  exact (proj2 (active_jobs_counts_queued_and_processing
                  ServerExamples.empty_server)
           "job-1" ServerExamples.request1 "12:00:00"
           ltac:(intros id a H; cbn in H; by rewrite lookup_empty in H)
           eq_refl).
Defined.

End RootFacts.

(** ** The further properties at concrete inputs *)

Section MoreConcrete.
Import Py Evaluate Trace Clean Examples.

Lemma blank_prediction_aborts_the_run_witness :
  exists e w',
    evaluate_submission
      (scripted [Returns (VStr " ") 0.25%float; Returns (VStr " ") 0.25%float])
      single_dir None fresh_world
    = (w', Raised e).
Proof.
  destruct (blank_prediction_aborts_the_run
              (scripted [Returns (VStr " ") 0.25%float;
                         Returns (VStr " ") 0.25%float])
              single_dir None fresh_world [] "a.png" []
              (after_call (scripted [Returns (VStr " ") 0.25%float;
                                     Returns (VStr " ") 0.25%float])
                 "a.png" fresh_world)
              _ ([], []) start_position " " 0.25%float
              eq_refl eq_refl eq_refl eq_refl eq_refl eq_refl)
    as (e & Hrun & _).
  by eexists e, _.
Defined.

Lemma results_follow_the_image_list_witness :
  exists w' res,
    evaluate_submission (scripted []) sample_dir None fresh_world
    = (w', Returned res) /\
    map image (predictions res) = ["a.png"; "b.png"].
Proof.
  destruct (evaluate_submission (scripted []) sample_dir None fresh_world)
    as [w' [res|e|x]] eqn:Hrun;
    [|by vm_compute in Hrun|by vm_compute in Hrun].
  exists w', res. split; [done|].
  exact (proj1 (results_follow_the_image_list (scripted []) sample_dir None
                  fresh_world w' res Hrun)).
Defined.


End MoreConcrete.

Section MoreConcreteServer.
Import Py Subprocess ApiServer Registry ServerExamples.

Lemma background_task_ends_terminal_witness :
  exists s' j',
    process_evaluation (env_with (child 901) (Ok tt)) "job-1" request1 one_job
    = (s', Ok tt) /\
    read s' 0 = Some j' /\ is_Some (completed_at j').
Proof.
  destruct (background_task_ends_terminal (env_with (child 901) (Ok tt))
              "job-1" request1 one_job 0 _ eq_refl eq_refl)
    as (s' & j' & H1 & H2 & _ & _ & _ & _ & H3 & _).
  by exists s', j'.
Defined.

Lemma background_task_completes_witness :
  exists s' j',
    process_evaluation (env_with (child 12) (Ok tt)) "job-1" request1 one_job
    = (s', Ok tt) /\
    read s' 0 = Some j' /\ job_status j' = completed.
Proof.
  destruct (background_task_completes (env_with (child 12) (Ok tt))
              "job-1" request1 one_job 0 _ "/workspace/dataset_test"
              "/tmp/tmp1" no_results
              eq_refl eq_refl eq_refl eq_refl eq_refl eq_refl eq_refl
              (or_introl eq_refl) ltac:(discriminate) eq_refl eq_refl
              eq_refl eq_refl)
    as (s' & j' & H1 & H2 & H3 & _).
  by exists s', j'.
Defined.

Lemma cleanup_error_fails_a_completed_job_witness :
  exists s' j',
    process_evaluation
      (env_with (child 12) (Raise (Exception "Directory not empty")))
      "job-1" request1 one_job
    = (s', Ok tt) /\
    read s' 0 = Some j' /\ job_status j' = failed /\
    error j' = Some "Directory not empty" /\ is_Some (results j').
Proof.
  destruct (cleanup_error_fails_a_completed_job
              (env_with (child 12) (Raise (Exception "Directory not empty")))
              "job-1" request1 one_job 0 _ "/workspace/dataset_test"
              "/tmp/tmp1" no_results (Exception "Directory not empty")
              eq_refl eq_refl eq_refl eq_refl eq_refl eq_refl eq_refl
              (or_introl eq_refl) ltac:(discriminate) eq_refl eq_refl
              eq_refl eq_refl)
    as (s' & j' & H1 & H2 & H3 & H4 & H5 & _).
  exists s', j'. rewrite H5. eauto.
Defined.

Lemma setup_failure_fails_the_job_witness :
  exists s' j',
    process_evaluation
      {| now_started := "12:00:01";
         ensure_test_dataset := Raise (Exception "NoSuchKey");
         make_tempdir := Ok "/tmp/tmp1";
         download_submission := Ok tt; extract_submission := Ok tt;
         has_predict_py := true; install_requirements := None;
         spawn := fun _ => child 12; unix_time := 1700000000;
         put_object := Ok tt; now_finished := "12:00:14";
         cleanup := Ok tt; now_failed := "12:00:15" |}
      "job-1" request1 one_job
    = (s', Ok tt) /\
    read s' 0 = Some j' /\ job_status j' = failed /\
    error j' = Some "NoSuchKey".
Proof.
  destruct (proj1 (setup_failure_fails_the_job
                     {| now_started := "12:00:01";
                        ensure_test_dataset := Raise (Exception "NoSuchKey");
                        make_tempdir := Ok "/tmp/tmp1";
                        download_submission := Ok tt;
                        extract_submission := Ok tt;
                        has_predict_py := true; install_requirements := None;
                        spawn := fun _ => child 12; unix_time := 1700000000;
                        put_object := Ok tt; now_finished := "12:00:14";
                        cleanup := Ok tt; now_failed := "12:00:15" |}
                     "job-1" request1 one_job 0 _ eq_refl eq_refl)
              (Exception "NoSuchKey") (or_introl eq_refl))
    as (s' & j' & H1 & H2 & H3 & H4 & _).
  by exists s', j'.
Defined.

End MoreConcreteServer.
